(** * Leverage.py: the restaking / leveraged frontier computation

    A shallow embedding of [plot_restaking_portfolios] (src/Leverage.py).

    The function is whole-array NumPy arithmetic over a two-dimensional
    grid, followed by three [ax.scatter] calls.  It is embedded as it is
    written: one-dimensional arrays are lists, two-dimensional arrays are
    lists of rows, every NumPy operator is an elementwise map or zip, a
    boolean-mask index [a[m]] selects the flattened entries whose mask
    entry is true, and the figure is the data handed to the three scatter
    calls.

    The element type is left abstract behind the [Scalar] interface, so the
    structural facts hold for whatever number type the arrays carry.  The
    algebraic facts are proved on the instance [ideal]: exact real numbers
    extended with a not-a-number value, which is what [np.sqrt] returns on a
    negative entry.  Rounding of binary64 arithmetic is not part of that
    instance.  The instance [binary64] is the arithmetic the code runs:
    IEEE 754 double precision, operator by operator; what rounding changes
    is stated and evaluated there. *)

From Stdlib Require Import Floats.
From Stdlib Require Import ZArith List Bool Reals Lra Lia Permutation.
Import ListNotations.

(** ** Errors *)

(** [np.linspace] raises [ValueError] on a negative sample count; nothing
    else in the function raises. *)
Inductive exn : Type := ValueError.

Inductive result (A : Type) : Type :=
| Ok (a : A)
| Raise (e : exn).

Arguments Ok {A} a.
Arguments Raise {A} e.

Definition bind {A B : Type} (m : result A) (k : A -> result B) : result B :=
  match m with
  | Ok a => k a
  | Raise e => Raise e
  end.

Notation "x <- m ;; k" := (bind m (fun x => k))
  (at level 61, m at next level, right associativity).

(** ** The number interface *)

Class Scalar (T : Type) : Type := {
  of_Z : Z -> T;            (* an integer literal or an [arange] entry *)
  tol : T;                  (* the literal 1e-10 *)
  fadd : T -> T -> T;
  fsub : T -> T -> T;
  fmul : T -> T -> T;
  fdiv : T -> T -> T;
  fsqrt : T -> T;           (* np.sqrt *)
  fabs : T -> T;            (* np.abs *)
  fle : T -> T -> bool;     (* <= *)
  flt : T -> T -> bool      (* < *)
}.

Declare Scope scalar_scope.
Delimit Scope scalar_scope with S.
Infix "+" := fadd : scalar_scope.
Infix "-" := fsub : scalar_scope.
Infix "*" := fmul : scalar_scope.
Infix "<=?" := fle : scalar_scope.
Infix "<?" := flt : scalar_scope.

(** ** Arrays *)

Definition array2 (A : Type) : Type := list (list A).

(** A unary operator, or an operator between a scalar and an array. *)
Definition amap {A B : Type} (f : A -> B) (a : array2 A) : array2 B :=
  map (map f) a.

(** A binary operator between two one-dimensional arrays. *)
Definition zip {A B C : Type} (f : A -> B -> C) (a : list A) (b : list B) : list C :=
  map (fun ab => f (fst ab) (snd ab)) (combine a b).

(** A binary operator between two arrays of one shape.  Every array of the
    function has the shape of the meshgrid, so no broadcast between arrays
    ever happens. *)
Definition azip {A B C : Type} (f : A -> B -> C) (a : array2 A) (b : array2 B)
  : array2 C :=
  zip (zip f) a b.

(** [a.ravel()]: row-major flattening, which [ax.scatter] applies to its
    array arguments. *)
Definition ravel {A : Type} (a : array2 A) : list A := concat a.

(** [a[m]] for a boolean mask [m] of the shape of [a]. *)
Definition mask_index {A : Type} (a : array2 A) (m : array2 bool) : list A :=
  map fst (filter snd (combine (ravel a) (ravel m))).

(** [a[j][i]] *)
Definition get2 {A : Type} (a : array2 A) (j i : nat) : option A :=
  match nth_error a j with
  | Some row => nth_error row i
  | None => None
  end.

(** [a[-1] = v]; an empty array has no last entry, and the function only
    assigns when there is one. *)
Definition set_last {A : Type} (a : list A) (v : A) : list A :=
  match a with
  | [] => []
  | _ :: _ => removelast a ++ [v]
  end.

(** [np.meshgrid(x, y)] with the default ['xy'] indexing: both results have
    [len(y)] rows and [len(x)] columns, [X[j][i] = x[i]] and
    [Y[j][i] = y[j]]. *)
Definition meshgrid {A B : Type} (x : list A) (y : list B) : array2 A * array2 B :=
  (map (fun _ => x) y, map (fun v => map (fun _ => v) x) y).

(** ** The function *)

Section Leverage.

Context {T : Type} `{Scalar T}.

Definition zero : T := of_Z 0.
Definition one : T := of_Z 1.
Definition two : T := of_Z 2.

(** [x**2] *)
Definition sqr (x : T) : T := fmul x x.

(** [np.arange(0, num)] *)
Definition arange (num : Z) : list Z :=
  map Z.of_nat (seq 0 (Z.to_nat num)).

(** [np.linspace(start, stop, num)] with [endpoint=True], as NumPy computes
    it: [ValueError] for a negative [num]; otherwise [arange(0, num)] scaled
    by [step = (stop - start) / (num - 1)] (by [stop - start] itself when
    [num - 1] is not positive), shifted by [start], and the last entry
    overwritten by [stop] when [num > 1].  NumPy's detour for a step that
    is zero is left out: the function calls [linspace] with [start = 0] and
    [stop = 1] only. *)
Definition linspace (start stop : T) (num : Z) : result (list T) :=
  if (num <? 0)%Z then Raise ValueError
  else
    let div := (num - 1)%Z in
    let delta := fsub stop start in
    let y := map of_Z (arange num) in
    let y :=
      if (0 <? div)%Z
      then let step := fdiv delta (of_Z div) in map (fun v => fmul v step) y
      else map (fun v => fmul v delta) y in
    let y := map (fun v => fadd v start) y in
    Ok (if (1 <? num)%Z then set_last y stop else y).

Record Params : Type := {
  mu1 : T;
  mu2 : T;
  sigma1 : T;
  sigma2 : T;
  rho : T;
  rf : T
}.

(** The arguments of one [ax.scatter] call: the x and y coordinates and,
    for a colour-graded layer, the colour values. *)
Record Scatter : Type := {
  xs : list T;
  ys : list T;
  cs : option (list T)
}.

(** The figure: the three scatter layers, in the order they are drawn. *)
Record Figure : Type := {
  scatter1 : Scatter;       (* 'Restaking' *)
  scatter_full : Scatter;   (* 'Restaking with(1 - phi1 - phi2)=0' *)
  scatter2 : Scatter        (* 'Leveraged' *)
}.

Section Body.

Variable p : Params.
Variables phi1_grid phi2_grid : array2 T.

Definition cov : T := fmul (fmul (rho p) (sigma1 p)) (sigma2 p).

(** Non-leveraged portfolios. *)

Definition E_R : array2 T :=
  azip fadd
    (amap (fmul (mu1 p)) (amap (fsub one) phi2_grid))
    (amap (fmul (mu2 p)) (amap (fsub one) phi1_grid)).

Definition Var_R : array2 T :=
  azip fadd
    (azip fadd
       (amap (fun v => fmul v (sqr (sigma1 p)))
          (amap sqr (amap (fsub one) phi2_grid)))
       (amap (fun v => fmul v (sqr (sigma2 p)))
          (amap sqr (amap (fsub one) phi1_grid))))
    (amap (fun v => fmul v cov)
       (azip fmul
          (amap (fmul two) (amap (fsub one) phi1_grid))
          (amap (fsub one) phi2_grid))).

Definition sigma_R : array2 T := amap fsqrt Var_R.

Definition valid_mask : array2 bool :=
  amap (fun v => fle v one) (azip fadd phi1_grid phi2_grid).

Definition zero_alloc_mask : array2 bool :=
  amap (fun v => flt v tol)
    (amap fabs (azip fsub (amap (fsub one) phi1_grid) phi2_grid)).

(** Leveraged portfolios. *)

Definition E_R_leverage : array2 T :=
  azip fadd
    (azip fadd
       (amap (fun v => fmul v (mu1 p)) phi1_grid)
       (amap (fun v => fmul v (mu2 p)) phi2_grid))
    (amap (fun v => fmul v (rf p))
       (azip fsub (amap (fsub one) phi1_grid) phi2_grid)).

Definition Var_R_leverage : array2 T :=
  azip fadd
    (azip fadd
       (amap (fun v => fmul v (sqr (sigma1 p))) (amap sqr phi1_grid))
       (amap (fun v => fmul v (sqr (sigma2 p))) (amap sqr phi2_grid)))
    (amap (fun v => fmul v cov)
       (azip fmul (amap (fmul two) phi1_grid) phi2_grid)).

Definition sigma_R_leverage : array2 T := amap fsqrt Var_R_leverage.

(** The masks of the two restaking layers. *)

Definition graded_mask : array2 bool :=
  azip andb valid_mask (amap negb zero_alloc_mask).

Definition full_mask : array2 bool :=
  azip andb valid_mask zero_alloc_mask.

Definition figure : Figure :=
  {| scatter1 :=
       {| xs := mask_index sigma_R graded_mask;
          ys := mask_index E_R graded_mask;
          cs := Some (zip fsub
                        (map (fsub one) (mask_index phi1_grid graded_mask))
                        (mask_index phi2_grid graded_mask)) |};
     scatter_full :=
       {| xs := mask_index sigma_R full_mask;
          ys := mask_index E_R full_mask;
          cs := None |};
     scatter2 :=
       {| xs := ravel sigma_R_leverage;
          ys := ravel E_R_leverage;
          cs := Some (ravel (azip fadd phi1_grid phi2_grid)) |} |}.

End Body.

(** The two sample vectors and their meshgrid. *)
Definition grids (n_points : Z) : result (list T * list T * (array2 T * array2 T)) :=
  phi1 <- linspace zero one n_points ;;
  phi2 <- linspace zero one n_points ;;
  Ok (phi1, phi2, meshgrid phi1 phi2).

Definition plot_restaking_portfolios (p : Params) (n_points : Z) : result Figure :=
  g <- grids n_points ;;
  Ok (figure p (fst (snd g)) (snd (snd g))).

End Leverage.

Arguments Params T : clear implicits.
Arguments Scatter T : clear implicits.
Arguments Figure T : clear implicits.

(** ** The ideal number type *)

(** Exact real numbers and one not-a-number value.  Every operator
    propagates [NaN], a comparison with [NaN] is false, and [np.sqrt] of a
    negative number is [NaN].  Infinities are not represented: a division by
    zero, which the function never performs, is [NaN] as well. *)
Inductive xreal : Type :=
| Fin (r : R)
| NaN.

Definition lift2 (f : R -> R -> R) (a b : xreal) : xreal :=
  match a, b with
  | Fin x, Fin y => Fin (f x y)
  | _, _ => NaN
  end.

Definition xdiv (a b : xreal) : xreal :=
  match a, b with
  | Fin x, Fin y => if Req_dec_T y 0 then NaN else Fin (x / y)
  | _, _ => NaN
  end.

Definition xsqrt (a : xreal) : xreal :=
  match a with
  | Fin x => if Rlt_dec x 0 then NaN else Fin (sqrt x)
  | NaN => NaN
  end.

Definition xabs (a : xreal) : xreal :=
  match a with
  | Fin x => Fin (Rabs x)
  | NaN => NaN
  end.

Definition xle (a b : xreal) : bool :=
  match a, b with
  | Fin x, Fin y => if Rle_dec x y then true else false
  | _, _ => false
  end.

Definition xlt (a b : xreal) : bool :=
  match a, b with
  | Fin x, Fin y => if Rlt_dec x y then true else false
  | _, _ => false
  end.

#[export] Instance ideal : Scalar xreal := {|
  of_Z := fun z => Fin (IZR z);
  tol := Fin (1 / 10 ^ 10);
  fadd := lift2 Rplus;
  fsub := lift2 Rminus;
  fmul := lift2 Rmult;
  fdiv := xdiv;
  fsqrt := xsqrt;
  fabs := xabs;
  fle := xle;
  flt := xlt
|}.

(** Market parameters given as real numbers. *)
Definition market (m1 m2 s1 s2 r f : R) : Params xreal :=
  {| mu1 := Fin m1; mu2 := Fin m2; sigma1 := Fin s1; sigma2 := Fin s2;
     rho := Fin r; rf := Fin f |}.

(** The default arguments of the function. *)
Definition defaults : Params xreal :=
  market (5 / 100) (7 / 100) (10 / 100) (15 / 100) (3 / 10) (2 / 100).

(** Parameters with equal returns and equal volatilities. *)
Definition twins : Params xreal :=
  market (5 / 100) (5 / 100) (10 / 100) (10 / 100) (3 / 10) (2 / 100).

(** The two variances as real numbers, for volatilities [s1], [s2] and
    correlation [r], at the pair [(a, b)]. *)
Definition restaking_var (s1 s2 r a b : R) : R :=
  ((1 - b) * (1 - b) * (s1 * s1) + (1 - a) * (1 - a) * (s2 * s2)
   + 2 * (1 - a) * (1 - b) * (r * s1 * s2))%R.

Definition leveraged_var (s1 s2 r a b : R) : R :=
  (a * a * (s1 * s1) + b * b * (s2 * s2) + 2 * a * b * (r * s1 * s2))%R.

(** The [i]-th of [m] evenly spaced points of [[0, 1]]: [i / (m - 1)], and
    [0] when there is one point only. *)
Definition sample (m i : nat) : R :=
  match m with
  | 1%nat => 0%R
  | _ => (INR i / INR (m - 1))%R
  end.

Definition samples (m : nat) : list xreal :=
  map (fun i => Fin (sample m i)) (seq 0 m).

(** ** The binary64 number type *)

(** The double nearest to an integer: the value of an integer literal and
    of an [arange] entry once it meets a float. *)
Definition b64_of_Z (z : Z) : float :=
  SF2Prim (binary_normalize prec emax z 0 false).

(** A decimal literal denotes the double nearest to it, in Python and
    here. *)
Set Warnings "-inexact-float".

(** NumPy's float64 and Python's float: every operator is the IEEE 754
    operator, rounded to nearest even; [np.sqrt] of a negative number is
    NaN, and a comparison with NaN is false. *)
#[export] Instance binary64 : Scalar float | 10 := {|
  of_Z := b64_of_Z;
  tol := 1e-10%float;
  fadd := PrimFloat.add;
  fsub := PrimFloat.sub;
  fmul := PrimFloat.mul;
  fdiv := PrimFloat.div;
  fsqrt := PrimFloat.sqrt;
  fabs := PrimFloat.abs;
  fle := PrimFloat.leb;
  flt := PrimFloat.ltb
|}.

Definition b64_market (m1 m2 s1 s2 r f : float) : Params float :=
  {| mu1 := m1; mu2 := m2; sigma1 := s1; sigma2 := s2; rho := r; rf := f |}.

(** The default arguments of the function. *)
Definition b64_defaults : Params float :=
  b64_market 0.05 0.07 0.10 0.15 0.3 0.02.

(** The samples [np.linspace(0, 1, n)] as doubles; empty when the call
    raises. *)
Definition b64_samples (n : Z) : list float :=
  match linspace (T := float) zero one n with
  | Ok phi => phi
  | Raise _ => []
  end.

(** ** The per-pair reading of the array code *)

(** The grid pairs in the order [ravel] visits them: [y] indexes the rows,
    [x] the columns. *)
Definition pairs {A B : Type} (x : list A) (y : list B) : list (A * B) :=
  flat_map (fun v => map (fun u => (u, v)) x) y.

(** The array whose entry at row [j], column [i] is [f x[i] y[j]]. *)
Definition tab {A B C : Type} (f : A -> B -> C) (x : list A) (y : list B) : array2 C :=
  map (fun v => map (fun u => f u v) x) y.

Section Formulas.

Context {T : Type} `{Scalar T}.
Variable p : Params T.

Definition restaking_return (x y : T) : T :=
  fadd (fmul (mu1 p) (fsub one y)) (fmul (mu2 p) (fsub one x)).

Definition restaking_variance (x y : T) : T :=
  fadd
    (fadd (fmul (sqr (fsub one y)) (sqr (sigma1 p)))
          (fmul (sqr (fsub one x)) (sqr (sigma2 p))))
    (fmul (fmul (fmul two (fsub one x)) (fsub one y)) (cov p)).

Definition leveraged_return (x y : T) : T :=
  fadd (fadd (fmul x (mu1 p)) (fmul y (mu2 p)))
       (fmul (fsub (fsub one x) y) (rf p)).

Definition leveraged_variance (x y : T) : T :=
  fadd
    (fadd (fmul (sqr x) (sqr (sigma1 p))) (fmul (sqr y) (sqr (sigma2 p))))
    (fmul (fmul (fmul two x) y) (cov p)).

Definition is_valid (x y : T) : bool := fle (fadd x y) one.

Definition is_zero_alloc (x y : T) : bool :=
  flt (fabs (fsub (fsub one x) y)) tol.

(** The grid pairs of the colour-graded layer and of the solid layer. *)
Definition graded (q : T * T) : bool :=
  is_valid (fst q) (snd q) && negb (is_zero_alloc (fst q) (snd q)).

Definition full (q : T * T) : bool :=
  is_valid (fst q) (snd q) && is_zero_alloc (fst q) (snd q).

(** The (volatility, expected return) point of a grid pair. *)
Definition restaking_point (q : T * T) : T * T :=
  (fsqrt (restaking_variance (fst q) (snd q)),
   restaking_return (fst q) (snd q)).

Definition leveraged_point (q : T * T) : T * T :=
  (fsqrt (leveraged_variance (fst q) (snd q)),
   leveraged_return (fst q) (snd q)).

(** The points a scatter layer draws. *)
Definition points (s : Scatter T) : list (T * T) := combine (xs s) (ys s).

End Formulas.

(** The two expected returns as real numbers, for returns [m1], [m2] and
    risk-free rate [f], at the pair [(a, b)]. *)
Definition restaking_ret (m1 m2 a b : R) : R :=
  (m1 * (1 - b) + m2 * (1 - a))%R.

Definition leveraged_ret (m1 m2 f a b : R) : R :=
  (a * m1 + b * m2 + (1 - a - b) * f)%R.

(** ** Shapes *)

(** An array of [rows] rows of [cols] entries each. *)
Definition has_shape {A : Type} (a : array2 A) (rows cols : nat) : Prop :=
  length a = rows /\ Forall (fun row => length row = cols) a.

(** ** Leverage_app.py *)

(** The values of the six [st.slider] widgets of the page. *)
Record Sliders (T : Type) : Type := {
  slider_mu1 : T;
  slider_mu2 : T;
  slider_sigma1 : T;
  slider_sigma2 : T;
  slider_rf : T;
  slider_rho : T
}.

Arguments slider_mu1 {T} s.
Arguments slider_mu2 {T} s.
Arguments slider_sigma1 {T} s.
Arguments slider_sigma2 {T} s.
Arguments slider_rf {T} s.
Arguments slider_rho {T} s.

(** The call in the plot column: every slider value under its own keyword,
    and 105 grid points. *)
Definition app_plot {T : Type} `{Scalar T} (s : Sliders T) : result (Figure T) :=
  plot_restaking_portfolios
    {| mu1 := slider_mu1 s; mu2 := slider_mu2 s;
       sigma1 := slider_sigma1 s; sigma2 := slider_sigma2 s;
       rho := slider_rho s; rf := slider_rf s |}
    105.

(** * Array lemmas *)

Section ArrayFacts.

Variables A B C D E : Type.

Lemma zip_map (h : C -> D -> E) (f : A -> C) (g : A -> D) (l : list A) :
  zip h (map f l) (map g l) = map (fun a => h (f a) (g a)) l.
Proof.
  unfold zip. induction l as [|a l IH]; simpl; [reflexivity|].
  now rewrite IH.
Qed.

Lemma amap_tab (h : C -> D) (f : A -> B -> C) (x : list A) (y : list B) :
  amap h (tab f x y) = tab (fun u v => h (f u v)) x y.
Proof.
  unfold amap, tab. rewrite map_map.
  apply map_ext; intro v. now rewrite map_map.
Qed.

Lemma ravel_tab (f : A -> B -> C) (x : list A) (y : list B) :
  ravel (tab f x y) = map (fun q => f (fst q) (snd q)) (pairs x y).
Proof.
  unfold ravel, tab, pairs.
  induction y as [|v y IH]; simpl; [reflexivity|].
  now rewrite IH, map_app, map_map.
Qed.

Lemma get2_tab (f : A -> B -> C) (x : list A) (y : list B) (j i : nat) :
  get2 (tab f x y) j i =
  match nth_error y j, nth_error x i with
  | Some v, Some u => Some (f u v)
  | _, _ => None
  end.
Proof.
  unfold get2, tab. rewrite nth_error_map.
  destruct (nth_error y j) as [v|]; simpl; [|reflexivity].
  rewrite nth_error_map. now destruct (nth_error x i).
Qed.

Lemma length_pairs (x : list A) (y : list B) :
  length (pairs x y) = (length y * length x)%nat.
Proof.
  unfold pairs. induction y as [|v y IH]; simpl; [reflexivity|].
  now rewrite length_app, length_map, IH.
Qed.

Lemma in_pairs (x : list A) (y : list B) (u : A) (v : B) :
  In (u, v) (pairs x y) <-> In u x /\ In v y.
Proof.
  unfold pairs. rewrite in_flat_map. split.
  - intros [w [Hw Hin]]. apply in_map_iff in Hin.
    destruct Hin as [u' [Heq Hu]]. inversion Heq; subst. now split.
  - intros [Hu Hv]. exists v. split; [assumption|].
    apply in_map_iff. now exists u.
Qed.

Lemma set_last_snoc (l : list A) (a v : A) :
  set_last (l ++ [a]) v = l ++ [v].
Proof.
  unfold set_last. destruct (l ++ [a]) eqn:E0.
  - now destruct l.
  - rewrite <- E0. now rewrite removelast_last.
Qed.

End ArrayFacts.

Section ArrayFacts2.

Variables A B C D E : Type.

Lemma azip_tab (h : C -> D -> E) (f : A -> B -> C) (g : A -> B -> D)
      (x : list A) (y : list B) :
  azip h (tab f x y) (tab g x y) = tab (fun u v => h (f u v) (g u v)) x y.
Proof.
  unfold azip, tab. rewrite zip_map.
  apply map_ext; intro v. apply zip_map.
Qed.

Lemma meshgrid_tab (x : list A) (y : list B) :
  meshgrid x y = (tab (fun u _ => u) x y, tab (fun _ v => v) x y).
Proof.
  unfold meshgrid, tab. f_equal.
  apply map_ext; intro v. now rewrite map_id.
Qed.

Lemma mask_index_tab (f : A -> B -> C) (m : A -> B -> bool)
      (x : list A) (y : list B) :
  mask_index (tab f x y) (tab m x y) =
  map (fun q => f (fst q) (snd q))
      (filter (fun q => m (fst q) (snd q)) (pairs x y)).
Proof.
  unfold mask_index. rewrite !ravel_tab.
  induction (pairs x y) as [|q l IH]; simpl; [reflexivity|].
  destruct (m (fst q) (snd q)); simpl; now rewrite IH.
Qed.

End ArrayFacts2.

(** * The array code, entry by entry *)

Section OnTheGrid.

Context {T : Type} `{Scalar T}.
Variable p : Params T.
Variables x y : list T.

Abbreviation g1 := (tab (fun u _ => u) x y).
Abbreviation g2 := (tab (fun _ v => v) x y).

Ltac on_tab := repeat (rewrite ?amap_tab, ?azip_tab); reflexivity.

Lemma E_R_tab : E_R p g1 g2 = tab (restaking_return p) x y.
Proof. unfold E_R. on_tab. Qed.

Lemma Var_R_tab : Var_R p g1 g2 = tab (restaking_variance p) x y.
Proof. unfold Var_R. on_tab. Qed.

Lemma sigma_R_tab :
  sigma_R p g1 g2 = tab (fun u v => fsqrt (restaking_variance p u v)) x y.
Proof. unfold sigma_R. rewrite Var_R_tab. apply amap_tab. Qed.

Lemma E_R_leverage_tab : E_R_leverage p g1 g2 = tab (leveraged_return p) x y.
Proof. unfold E_R_leverage. on_tab. Qed.

Lemma Var_R_leverage_tab :
  Var_R_leverage p g1 g2 = tab (leveraged_variance p) x y.
Proof. unfold Var_R_leverage. on_tab. Qed.

Lemma sigma_R_leverage_tab :
  sigma_R_leverage p g1 g2 =
  tab (fun u v => fsqrt (leveraged_variance p u v)) x y.
Proof. unfold sigma_R_leverage. rewrite Var_R_leverage_tab. apply amap_tab. Qed.

Lemma valid_mask_tab : valid_mask g1 g2 = tab is_valid x y.
Proof. unfold valid_mask. on_tab. Qed.

Lemma zero_alloc_mask_tab : zero_alloc_mask g1 g2 = tab is_zero_alloc x y.
Proof. unfold zero_alloc_mask. on_tab. Qed.

Lemma graded_mask_tab :
  graded_mask g1 g2 =
  tab (fun u v => is_valid u v && negb (is_zero_alloc u v)) x y.
Proof.
  unfold graded_mask. rewrite valid_mask_tab, zero_alloc_mask_tab. on_tab.
Qed.

Lemma full_mask_tab :
  full_mask g1 g2 = tab (fun u v => is_valid u v && is_zero_alloc u v) x y.
Proof.
  unfold full_mask. rewrite valid_mask_tab, zero_alloc_mask_tab. on_tab.
Qed.

End OnTheGrid.

(** * The sample vectors *)

Section Linspace.

Context {T : Type} `{Scalar T}.

Lemma length_arange (n : Z) : length (arange n) = Z.to_nat n.
Proof. unfold arange. now rewrite length_map, length_seq. Qed.

Lemma length_set_last (l : list T) (v : T) : length (set_last l v) = length l.
Proof.
  destruct l as [|a l] using rev_ind; [reflexivity|].
  rewrite set_last_snoc. now rewrite !length_app.
Qed.

Lemma linspace_negative (a b : T) (n : Z) :
  (n < 0)%Z -> linspace a b n = Raise ValueError.
Proof.
  intro Hn. unfold linspace.
  destruct (Z.ltb_spec n 0) as [_|Hge]; [reflexivity|lia].
Qed.

Lemma linspace_length (a b : T) (n : Z) :
  (0 <= n)%Z ->
  exists l, linspace a b n = Ok l /\ length l = Z.to_nat n.
Proof.
  intro Hn. unfold linspace.
  destruct (Z.ltb_spec n 0) as [Hlt|_]; [lia|].
  eexists. split; [reflexivity|].
  destruct (1 <? n)%Z, (0 <? n - 1)%Z;
    rewrite ?length_set_last, !length_map; apply length_arange.
Qed.

Lemma grids_ok (n : Z) :
  (0 <= n)%Z ->
  exists phi,
    linspace zero one n = Ok phi /\
    length phi = Z.to_nat n /\
    grids n = Ok (phi, phi, (tab (fun u _ => u) phi phi,
                             tab (fun _ v => v) phi phi)).
Proof.
  intro Hn. destruct (linspace_length zero one n Hn) as [phi [Hl Hlen]].
  exists phi. repeat split; try assumption.
  unfold grids. rewrite Hl. simpl. now rewrite meshgrid_tab.
Qed.

Lemma grids_negative (n : Z) : (n < 0)%Z -> grids n = Raise ValueError.
Proof.
  intro Hn. unfold grids. now rewrite (linspace_negative zero one n Hn).
Qed.

End Linspace.

(** * The formulas of the two branches *)

Section Branches.

Context {T : Type} `{Scalar T}.
Variable p : Params T.

Local Open Scope scalar_scope.

(** C1.  For every market parameters and every [n_points >= 1] the grid
    is built, and at every grid pair [(phi1, phi2)] (column [i], row [j])
    the restaking branch holds
    [mu1*(1 - phi2) + mu2*(1 - phi1)] in [E_R],
    [(1-phi2)^2*sigma1^2 + (1-phi1)^2*sigma2^2 + 2*(1-phi1)*(1-phi2)*cov]
    in [Var_R], with [cov = rho*sigma1*sigma2], and the square root of
    that variance in [sigma_R]. *)
Theorem restaking_branch_formulas (n : Z) :
  (1 <= n)%Z ->
  exists phi g1 g2,
    grids n = Ok (phi, phi, (g1, g2)) /\
    length phi = Z.to_nat n /\
    cov p = rho p * sigma1 p * sigma2 p /\
    forall i j phi1 phi2,
      nth_error phi i = Some phi1 ->
      nth_error phi j = Some phi2 ->
      let expected_return :=
        mu1 p * (one - phi2) + mu2 p * (one - phi1) in
      let variance :=
        sqr (one - phi2) * sqr (sigma1 p)
        + sqr (one - phi1) * sqr (sigma2 p)
        + two * (one - phi1) * (one - phi2) * cov p in
      get2 (E_R p g1 g2) j i = Some expected_return /\
      get2 (Var_R p g1 g2) j i = Some variance /\
      get2 (sigma_R p g1 g2) j i = Some (fsqrt variance).
Proof.
  intro Hn. destruct (grids_ok n) as [phi [_ [Hlen Hg]]]; [lia|].
  exists phi; do 2 eexists. split; [exact Hg|].
  split; [exact Hlen|]. split; [reflexivity|].
  intros i j phi1 phi2 Hi Hj. cbv zeta.
  rewrite E_R_tab, Var_R_tab, sigma_R_tab, !get2_tab, Hi, Hj.
  repeat split.
Qed.

(** C2.  For every market parameters and every [n_points >= 1], at every
    grid pair [(phi1, phi2)] the leveraged branch holds
    [phi1*mu1 + phi2*mu2 + (1 - phi1 - phi2)*rf] in [E_R_leverage],
    [phi1^2*sigma1^2 + phi2^2*sigma2^2 + 2*phi1*phi2*cov] in
    [Var_R_leverage], with [cov = rho*sigma1*sigma2], and the square root
    of that variance in [sigma_R_leverage]. *)
Theorem leveraged_branch_formulas (n : Z) :
  (1 <= n)%Z ->
  exists phi g1 g2,
    grids n = Ok (phi, phi, (g1, g2)) /\
    length phi = Z.to_nat n /\
    cov p = rho p * sigma1 p * sigma2 p /\
    forall i j phi1 phi2,
      nth_error phi i = Some phi1 ->
      nth_error phi j = Some phi2 ->
      let expected_return :=
        phi1 * mu1 p + phi2 * mu2 p + (one - phi1 - phi2) * rf p in
      let variance :=
        sqr phi1 * sqr (sigma1 p) + sqr phi2 * sqr (sigma2 p)
        + two * phi1 * phi2 * cov p in
      get2 (E_R_leverage p g1 g2) j i = Some expected_return /\
      get2 (Var_R_leverage p g1 g2) j i = Some variance /\
      get2 (sigma_R_leverage p g1 g2) j i = Some (fsqrt variance).
Proof.
  intro Hn. destruct (grids_ok n) as [phi [_ [Hlen Hg]]]; [lia|].
  exists phi; do 2 eexists. split; [exact Hg|].
  split; [exact Hlen|]. split; [reflexivity|].
  intros i j phi1 phi2 Hi Hj. cbv zeta.
  rewrite E_R_leverage_tab, Var_R_leverage_tab, sigma_R_leverage_tab,
    !get2_tab, Hi, Hj.
  repeat split.
Qed.

(** C10.  With [n_points = 0] nothing is raised: both sample vectors are
    empty, the meshgrid has no entry, and the three scatter layers of the
    figure are empty. *)
Theorem zero_points_empty_figure :
  linspace zero one 0 = Ok [] /\
  grids 0 = Ok ([], [], ([], [])) /\
  plot_restaking_portfolios p 0 =
  Ok {| scatter1 := {| xs := []; ys := []; cs := Some [] |};
        scatter_full := {| xs := []; ys := []; cs := None |};
        scatter2 := {| xs := []; ys := []; cs := Some [] |} |}.
Proof. repeat split. Qed.

End Branches.

(** * The scatter layers *)

Lemma combine_map_same {A B C : Type} (f : A -> B) (g : A -> C) (l : list A) :
  combine (map f l) (map g l) = map (fun a => (f a, g a)) l.
Proof. induction l as [|a l IH]; simpl; [reflexivity|]. now rewrite IH. Qed.

Lemma filter_split_perm {A : Type} (a z : A -> bool) (l : list A) :
  Permutation
    (filter (fun q => a q && negb (z q)) l ++ filter (fun q => a q && z q) l)
    (filter a l).
Proof.
  induction l as [|q l IH]; simpl; [constructor|].
  destruct (a q), (z q); simpl; try assumption.
  - apply Permutation_sym, Permutation_cons_app, Permutation_sym, IH.
  - now constructor.
Qed.

Lemma length_filter_le {A : Type} (f : A -> bool) (l : list A) :
  (length (filter f l) <= length l)%nat.
Proof.
  induction l as [|a l IH]; simpl; [lia|]. destruct (f a); simpl; lia.
Qed.

Section Layers.

Context {T : Type} `{Scalar T}.
Variable p : Params T.
Variables x y : list T.

Abbreviation g1 := (tab (fun u _ => u) x y).
Abbreviation g2 := (tab (fun _ v => v) x y).

Lemma points_scatter1 :
  points (scatter1 (figure p g1 g2)) =
  map (restaking_point p) (filter graded (pairs x y)).
Proof.
  unfold points; simpl.
  rewrite sigma_R_tab, E_R_tab, graded_mask_tab, !mask_index_tab.
  apply combine_map_same.
Qed.

Lemma points_scatter_full :
  points (scatter_full (figure p g1 g2)) =
  map (restaking_point p) (filter full (pairs x y)).
Proof.
  unfold points; simpl.
  rewrite sigma_R_tab, E_R_tab, full_mask_tab, !mask_index_tab.
  apply combine_map_same.
Qed.

Lemma points_scatter2 :
  points (scatter2 (figure p g1 g2)) = map (leveraged_point p) (pairs x y).
Proof.
  unfold points; simpl.
  rewrite sigma_R_leverage_tab, E_R_leverage_tab, !ravel_tab.
  apply combine_map_same.
Qed.

Lemma xs_scatter1 :
  xs (scatter1 (figure p g1 g2)) =
  map (fun q => fst (restaking_point p q)) (filter graded (pairs x y)).
Proof.
  simpl. now rewrite sigma_R_tab, graded_mask_tab, mask_index_tab.
Qed.

Lemma xs_scatter_full :
  xs (scatter_full (figure p g1 g2)) =
  map (fun q => fst (restaking_point p q)) (filter full (pairs x y)).
Proof.
  simpl. now rewrite sigma_R_tab, full_mask_tab, mask_index_tab.
Qed.

Lemma xs_scatter2 :
  xs (scatter2 (figure p g1 g2)) =
  map (fun q => fst (leveraged_point p q)) (pairs x y).
Proof. simpl. now rewrite sigma_R_leverage_tab, ravel_tab. Qed.

Lemma colours_scatter1 :
  cs (scatter1 (figure p g1 g2)) =
  Some (map (fun q => fsub (fsub one (fst q)) (snd q))
            (filter graded (pairs x y))).
Proof.
  simpl. rewrite graded_mask_tab, !mask_index_tab.
  rewrite map_map. now rewrite zip_map.
Qed.

Lemma colours_scatter2 :
  cs (scatter2 (figure p g1 g2)) =
  Some (map (fun q => fadd (fst q) (snd q)) (pairs x y)).
Proof. simpl. now rewrite azip_tab, ravel_tab. Qed.

End Layers.

(** * Validity and the fully-allocated tag *)

Section Masks.

Context {T : Type} `{Scalar T}.
Variable p : Params T.

Local Open Scope scalar_scope.

Lemma plot_ok (n : Z) :
  (0 <= n)%Z ->
  exists phi,
    length phi = Z.to_nat n /\
    grids n = Ok (phi, phi, (tab (fun u _ => u) phi phi,
                             tab (fun _ v => v) phi phi)) /\
    plot_restaking_portfolios p n =
    Ok (figure p (tab (fun u _ => u) phi phi) (tab (fun _ v => v) phi phi)).
Proof.
  intro Hn. destruct (grids_ok n Hn) as [phi [_ [Hlen Hg]]].
  exists phi. repeat split; try assumption.
  unfold plot_restaking_portfolios. now rewrite Hg.
Qed.

(** C4.  For every market parameters and every [n_points >= 1]: the grid
    pair at column [i], row [j] is drawn by one of the two restaking
    layers exactly when [phi1 + phi2 <= 1]; the restaking points are, up
    to order, the points of the grid pairs with [phi1 + phi2 <= 1], so
    there are as many as such pairs and at most [n_points^2]; the
    leveraged layer draws the point of every grid pair, [n_points^2] in
    all. *)
Theorem restaking_validity_and_sizes (n : Z) :
  (1 <= n)%Z ->
  exists phi g1 g2 fig,
    grids n = Ok (phi, phi, (g1, g2)) /\
    plot_restaking_portfolios p n = Ok fig /\
    (forall i j phi1 phi2,
        nth_error phi i = Some phi1 ->
        nth_error phi j = Some phi2 ->
        (get2 (graded_mask g1 g2) j i = Some true \/
         get2 (full_mask g1 g2) j i = Some true)
        <-> (phi1 + phi2 <=? one) = true) /\
    Permutation
      (points (scatter1 fig) ++ points (scatter_full fig))
      (map (restaking_point p)
           (filter (fun q => fst q + snd q <=? one) (pairs phi phi))) /\
    (length (points (scatter1 fig)) + length (points (scatter_full fig)))%nat =
    length (filter (fun q => fst q + snd q <=? one) (pairs phi phi)) /\
    (Z.of_nat (length (points (scatter1 fig)) +
               length (points (scatter_full fig))) <= n * n)%Z /\
    points (scatter2 fig) = map (leveraged_point p) (pairs phi phi) /\
    Z.of_nat (length (points (scatter2 fig))) = (n * n)%Z.
Proof.
  intro Hn. destruct (plot_ok n) as [phi [Hlen [Hg Hp]]]; [lia|].
  exists phi; do 3 eexists.
  split; [exact Hg|]. split; [exact Hp|].
  rewrite points_scatter1, points_scatter_full, points_scatter2.
  assert (Hperm :
    Permutation
      (map (restaking_point p) (filter graded (pairs phi phi)) ++
       map (restaking_point p) (filter full (pairs phi phi)))
      (map (restaking_point p)
           (filter (fun q => fst q + snd q <=? one) (pairs phi phi)))).
  { rewrite <- map_app. apply Permutation_map.
    apply (filter_split_perm (fun q => is_valid (fst q) (snd q))
                             (fun q => is_zero_alloc (fst q) (snd q))). }
  assert (Hsq : Z.of_nat (length (pairs phi phi)) = (n * n)%Z).
  { rewrite length_pairs, Hlen. lia. }
  assert (Hcount :
    (length (map (restaking_point p) (filter graded (pairs phi phi))) +
     length (map (restaking_point p) (filter full (pairs phi phi))))%nat =
    length (filter (fun q => fst q + snd q <=? one) (pairs phi phi))).
  { rewrite <- length_app, (Permutation_length Hperm). apply length_map. }
  split; [|repeat split].
  - intros i j phi1 phi2 Hi Hj.
    rewrite graded_mask_tab, full_mask_tab, !get2_tab, Hi, Hj.
    unfold is_valid. split.
    + intros [Hm|Hm]; injection Hm as Hb;
        apply andb_true_iff in Hb; destruct Hb as [Hv _]; exact Hv.
    + intro Hv. rewrite Hv. simpl.
      destruct (is_zero_alloc phi1 phi2); simpl; [right|left]; reflexivity.
  - exact Hperm.
  - exact Hcount.
  - rewrite Hcount, <- Hsq. apply Nat2Z.inj_le, length_filter_le.
  - now rewrite length_map.
Qed.

(** C5.  For every market parameters and every [n_points >= 1]: a grid
    pair with [phi1 + phi2 <= 1] is in the fully-allocated layer exactly
    when [|1 - phi1 - phi2| < 1e-10]; every pair of the fully-allocated
    layer and every pair of the colour-graded layer is a valid pair, and
    no pair is in both layers. *)
Theorem fully_allocated_tag (n : Z) :
  (1 <= n)%Z ->
  exists phi g1 g2 fig,
    grids n = Ok (phi, phi, (g1, g2)) /\
    plot_restaking_portfolios p n = Ok fig /\
    (forall i j phi1 phi2,
        nth_error phi i = Some phi1 ->
        nth_error phi j = Some phi2 ->
        (phi1 + phi2 <=? one) = true ->
        get2 (full_mask g1 g2) j i = Some true
        <-> (fabs (one - phi1 - phi2) <? tol) = true) /\
    (forall i j,
        get2 (full_mask g1 g2) j i = Some true ->
        get2 (valid_mask g1 g2) j i = Some true) /\
    (forall i j,
        get2 (graded_mask g1 g2) j i = Some true ->
        get2 (valid_mask g1 g2) j i = Some true) /\
    (forall i j,
        get2 (full_mask g1 g2) j i = Some true ->
        get2 (graded_mask g1 g2) j i = Some false) /\
    points (scatter_full fig) =
    map (restaking_point p)
        (filter (fun q => (fst q + snd q <=? one)
                          && (fabs (one - fst q - snd q) <? tol))
                (pairs phi phi)) /\
    points (scatter1 fig) =
    map (restaking_point p)
        (filter (fun q => (fst q + snd q <=? one)
                          && negb (fabs (one - fst q - snd q) <? tol))
                (pairs phi phi)).
Proof.
  intro Hn. destruct (plot_ok n) as [phi [Hlen [Hg Hp]]]; [lia|].
  exists phi; do 3 eexists.
  split; [exact Hg|]. split; [exact Hp|].
  rewrite points_scatter1, points_scatter_full.
  rewrite graded_mask_tab, full_mask_tab, valid_mask_tab.
  split; [|repeat split].
  - intros i j phi1 phi2 Hi Hj Hv.
    rewrite get2_tab, Hi, Hj. unfold is_valid, is_zero_alloc.
    rewrite Hv. simpl. split; intro Hm; [now injection Hm|now f_equal].
  - intros i j. rewrite !get2_tab.
    destruct (nth_error phi j), (nth_error phi i); try discriminate.
    intro Hm. injection Hm as Hb. apply andb_true_iff in Hb.
    destruct Hb as [Hv _]. now rewrite Hv.
  - intros i j. rewrite !get2_tab.
    destruct (nth_error phi j), (nth_error phi i); try discriminate.
    intro Hm. injection Hm as Hb. apply andb_true_iff in Hb.
    destruct Hb as [Hv _]. now rewrite Hv.
  - intros i j. rewrite !get2_tab.
    destruct (nth_error phi j), (nth_error phi i); try discriminate.
    intro Hm. injection Hm as Hb. apply andb_true_iff in Hb.
    destruct Hb as [Hv Hz]. now rewrite Hv, Hz.
Qed.

End Masks.

(** * The ideal instance *)

Section Ideal.

Local Open Scope R_scope.

Lemma sample_range (m i : nat) : (i < m)%nat -> 0 <= sample m i <= 1.
Proof.
  intro Hi. unfold sample.
  destruct m as [|[|k]]; [lia|lra|].
  replace (S (S k) - 1)%nat with (S k) by lia.
  assert (Hk : 0 < INR (S k)) by (apply lt_0_INR; lia).
  assert (H0 : 0 <= INR i) by apply pos_INR.
  assert (H1 : INR i <= INR (S k)) by (apply le_INR; lia).
  split.
  - apply Rmult_le_pos; [assumption|]. left. now apply Rinv_0_lt_compat.
  - apply (Rmult_le_reg_r (INR (S k))); [assumption|].
    unfold Rdiv. rewrite Rmult_assoc, Rinv_l; lra.
Qed.

Lemma sample_first (m : nat) : sample m 0 = 0.
Proof.
  unfold sample. destruct m as [|[|k]]; try reflexivity; simpl INR;
    unfold Rdiv; apply Rmult_0_l.
Qed.

Lemma sample_last (m : nat) : (2 <= m)%nat -> sample m (m - 1) = 1.
Proof.
  intro Hm. unfold sample. destruct m as [|[|k]]; try lia.
  apply Rinv_r. apply not_0_INR. lia.
Qed.


Lemma ideal_linspace (m : nat) :
  linspace (T := xreal) zero one (Z.of_nat m) = Ok (samples m).
Proof.
  unfold linspace, samples.
  destruct (Z.ltb_spec (Z.of_nat m) 0) as [Hneg|_]; [lia|].
  unfold arange. rewrite Nat2Z.id.
  destruct m as [|[|k]].
  - reflexivity.
  - simpl. replace (0 * (1 - 0) + 0) with 0 by lra. reflexivity.
  - destruct (Z.ltb_spec 0 (Z.of_nat (S (S k)) - 1)) as [_|Hd]; [|lia].
    destruct (Z.ltb_spec 1 (Z.of_nat (S (S k)))) as [_|Hd]; [|lia].
    rewrite (seq_S (S k) 0), !map_last.
    rewrite set_last_snoc. f_equal.
    rewrite !map_map. f_equal.
    + apply map_ext; intro i.
      replace (Z.of_nat (S (S k)) - 1)%Z with (Z.of_nat (S k)) by lia.
      cbv [fadd fsub fmul fdiv of_Z ideal zero one lift2 xdiv].
      destruct (Req_dec_T (IZR (Z.of_nat (S k))) 0) as [He|Hne].
      * apply eq_IZR_R0 in He. lia.
      * f_equal. unfold sample.
        replace (S (S k) - 1)%nat with (S k) by lia.
        rewrite <- !INR_IZR_INZ. unfold Rdiv. ring.
    + f_equal. rewrite Nat.add_0_l.
      cbv [of_Z ideal one]. f_equal. symmetry.
      apply (sample_last (S (S k))). lia.
Qed.

Lemma ideal_grids (m : nat) :
  grids (T := xreal) (Z.of_nat m) =
  Ok (samples m, samples m,
      (tab (fun u _ => u) (samples m) (samples m),
       tab (fun _ v => v) (samples m) (samples m))).
Proof.
  unfold grids. rewrite ideal_linspace. simpl. now rewrite meshgrid_tab.
Qed.

Lemma nth_samples (m i : nat) :
  (i < m)%nat -> nth_error (samples m) i = Some (Fin (sample m i)).
Proof.
  intro Hi. unfold samples. rewrite nth_error_map, nth_error_seq.
  destruct (Nat.ltb_spec i m); [reflexivity|lia].
Qed.



End Ideal.

(** * Non-negative variance *)

Section Variance.

Local Open Scope R_scope.

Lemma quadratic_form_nonneg (a b r : R) :
  -1 <= r <= 1 -> 0 <= a * a + b * b + 2 * r * a * b.
Proof.
  intros [Hlo Hhi].
  assert (Hp : 0 <= (1 + r) * ((a + b) * (a + b))).
  { apply Rmult_le_pos; [lra|]. apply Rle_0_sqr. }
  assert (Hm : 0 <= (1 - r) * ((a - b) * (a - b))).
  { apply Rmult_le_pos; [lra|]. apply Rle_0_sqr. }
  nra.
Qed.

Variables m1 m2 s1 s2 r f : R.

Abbreviation p := (market m1 m2 s1 s2 r f).

Lemma restaking_variance_fin (a b : R) :
  restaking_variance p (Fin a) (Fin b) = Fin (restaking_var s1 s2 r a b).
Proof. reflexivity. Qed.

Lemma leveraged_variance_fin (a b : R) :
  leveraged_variance p (Fin a) (Fin b) = Fin (leveraged_var s1 s2 r a b).
Proof. reflexivity. Qed.

Lemma restaking_var_nonneg (a b : R) :
  -1 <= r <= 1 -> 0 <= restaking_var s1 s2 r a b.
Proof.
  intro Hr. unfold restaking_var.
  replace ((1 - b) * (1 - b) * (s1 * s1) + (1 - a) * (1 - a) * (s2 * s2)
           + 2 * (1 - a) * (1 - b) * (r * s1 * s2))
    with (((1 - b) * s1) * ((1 - b) * s1) + ((1 - a) * s2) * ((1 - a) * s2)
          + 2 * r * ((1 - b) * s1) * ((1 - a) * s2)) by ring.
  now apply quadratic_form_nonneg.
Qed.

Lemma leveraged_var_nonneg (a b : R) :
  -1 <= r <= 1 -> 0 <= leveraged_var s1 s2 r a b.
Proof.
  intro Hr. unfold leveraged_var.
  replace (a * a * (s1 * s1) + b * b * (s2 * s2) + 2 * a * b * (r * s1 * s2))
    with ((a * s1) * (a * s1) + (b * s2) * (b * s2)
          + 2 * r * (a * s1) * (b * s2)) by ring.
  now apply quadratic_form_nonneg.
Qed.

Lemma fsqrt_fin (v : R) : 0 <= v -> fsqrt (Fin v) = Fin (sqrt v).
Proof.
  intro Hv. cbv [fsqrt ideal xsqrt].
  destruct (Rlt_dec v 0) as [Hneg|_]; [lra|reflexivity].
Qed.

End Variance.

Section Volatility.

Local Open Scope R_scope.

Variables m1 m2 s1 s2 r f : R.

Abbreviation p := (market m1 m2 s1 s2 r f).

Lemma in_pairs_samples (m : nat) (q : xreal * xreal) :
  In q (pairs (samples m) (samples m)) ->
  exists a b, q = (Fin a, Fin b).
Proof.
  destruct q as [u v]. rewrite in_pairs. intros [Hu Hv].
  apply in_map_iff in Hu. destruct Hu as [i [<- _]].
  apply in_map_iff in Hv. destruct Hv as [j [<- _]].
  now do 2 eexists.
Qed.

(** In exact arithmetic, for [sigma1 >= 0], [sigma2 >= 0],
    [-1 <= rho <= 1] and [n_points >= 1]: at every grid pair both
    variances are numbers that are not negative, both volatilities are
    their square roots, and so is every volatility that the three scatter
    layers draw. *)
Lemma exact_volatility_nonneg (n : Z) :
  0 <= s1 -> 0 <= s2 -> -1 <= r <= 1 -> (1 <= n)%Z ->
  exists phi g1 g2 fig,
    grids n = Ok (phi, phi, (g1, g2)) /\
    plot_restaking_portfolios p n = Ok fig /\
    (forall i j, (i < Z.to_nat n)%nat -> (j < Z.to_nat n)%nat ->
       exists v,
         get2 (Var_R p g1 g2) j i = Some (Fin v) /\ 0 <= v /\
         get2 (sigma_R p g1 g2) j i = Some (Fin (sqrt v)) /\ 0 <= sqrt v) /\
    (forall i j, (i < Z.to_nat n)%nat -> (j < Z.to_nat n)%nat ->
       exists v,
         get2 (Var_R_leverage p g1 g2) j i = Some (Fin v) /\ 0 <= v /\
         get2 (sigma_R_leverage p g1 g2) j i = Some (Fin (sqrt v)) /\
         0 <= sqrt v) /\
    (forall s,
       In s (xs (scatter1 fig)) \/ In s (xs (scatter_full fig)) \/
       In s (xs (scatter2 fig)) ->
       exists v, s = Fin v /\ 0 <= v).
Proof.
  intros Hs1 Hs2 Hr Hn.
  rewrite <- (Z2Nat.id n) by lia.
  rewrite Nat2Z.id. set (m := Z.to_nat n).
  do 4 eexists.
  split; [apply ideal_grids|].
  split; [unfold plot_restaking_portfolios; rewrite ideal_grids; reflexivity|].
  simpl fst; simpl snd.
  repeat split.
  - intros i j Hi Hj. exists (restaking_var s1 s2 r (sample m i) (sample m j)).
    pose proof (restaking_var_nonneg s1 s2 r (sample m i) (sample m j) Hr) as Hv.
    rewrite Var_R_tab, sigma_R_tab, !get2_tab, (nth_samples m i Hi), (nth_samples m j Hj).
    rewrite restaking_variance_fin. rewrite (fsqrt_fin _ Hv).
    repeat split; try assumption. apply sqrt_pos.
  - intros i j Hi Hj. exists (leveraged_var s1 s2 r (sample m i) (sample m j)).
    pose proof (leveraged_var_nonneg s1 s2 r (sample m i) (sample m j) Hr) as Hv.
    rewrite Var_R_leverage_tab, sigma_R_leverage_tab, !get2_tab,
      (nth_samples m i Hi), (nth_samples m j Hj).
    rewrite leveraged_variance_fin. rewrite (fsqrt_fin _ Hv).
    repeat split; try assumption. apply sqrt_pos.
  - rewrite xs_scatter1, xs_scatter_full, xs_scatter2.
    intros s [Hin|[Hin|Hin]]; apply in_map_iff in Hin;
      destruct Hin as [q [<- Hq]];
      try (apply filter_In in Hq; destruct Hq as [Hq _]);
      apply in_pairs_samples in Hq; destruct Hq as [a [b ->]];
      cbv [restaking_point leveraged_point fst snd].
    + rewrite restaking_variance_fin. rewrite (fsqrt_fin _ (restaking_var_nonneg s1 s2 r a b Hr)).
      eexists; split; [reflexivity|apply sqrt_pos].
    + rewrite restaking_variance_fin. rewrite (fsqrt_fin _ (restaking_var_nonneg s1 s2 r a b Hr)).
      eexists; split; [reflexivity|apply sqrt_pos].
    + rewrite leveraged_variance_fin. rewrite (fsqrt_fin _ (leveraged_var_nonneg s1 s2 r a b Hr)).
      eexists; split; [reflexivity|apply sqrt_pos].
Qed.

End Volatility.

(** * The grid *)

Section Grid.

Local Open Scope R_scope.


End Grid.

(** * Degenerate grids *)

Section Degenerate.

Local Open Scope R_scope.

Lemma graded_origin : graded (Fin 0, Fin 0) = true.
Proof.
  cbv [graded is_valid is_zero_alloc fst snd fle flt fabs fadd fsub tol
       ideal one of_Z lift2 xle xlt xabs].
  destruct (Rle_dec (0 + 0) 1) as [_|Hn]; [|lra].
  destruct (Rlt_dec (Rabs (1 - 0 - 0)) (1 / 10 ^ 10)) as [Hlt|_];
    [|reflexivity].
  replace (1 - 0 - 0) with 1 in Hlt by lra. rewrite Rabs_R1 in Hlt.
  simpl in Hlt. lra.
Qed.

Lemma full_origin : full (Fin 0, Fin 0) = false.
Proof.
  pose proof graded_origin as Hg. unfold graded, full in *.
  apply andb_true_iff in Hg. destruct Hg as [Hv Hz].
  rewrite Hv. simpl. now apply negb_true_iff.
Qed.

(** C7, the failing half: no exception comes out of a call with
    [n_points = 0]. *)
Lemma zero_points_not_rejected :
  ~ exists e, plot_restaking_portfolios defaults 0 = Raise e.
Proof. intros [e He]. discriminate He. Qed.

(** C7, as the code has it.  A call with [n_points = 0] is not rejected:
    it returns a figure whose three layers have no points.  A call with
    [n_points = 1] returns a figure with the single restaking point and
    the single leveraged point of the grid pair [(0, 0)]. *)
Theorem degenerate_grids (p : Params xreal) :
  (exists fig,
      plot_restaking_portfolios p 0 = Ok fig /\
      points (scatter1 fig) = [] /\
      points (scatter_full fig) = [] /\
      points (scatter2 fig) = []) /\
  (exists fig,
      plot_restaking_portfolios p 1 = Ok fig /\
      points (scatter1 fig) = [restaking_point p (Fin 0, Fin 0)] /\
      points (scatter_full fig) = [] /\
      points (scatter2 fig) = [leveraged_point p (Fin 0, Fin 0)]).
Proof.
  split.
  - eexists. repeat split.
  - exists (figure p (tab (fun u _ => u) (samples 1) (samples 1))
                     (tab (fun _ v => v) (samples 1) (samples 1))).
    split.
    + unfold plot_restaking_portfolios.
      change 1%Z with (Z.of_nat 1).
      rewrite (ideal_grids 1). reflexivity.
    + rewrite points_scatter1, points_scatter_full, points_scatter2.
      change (pairs (samples 1) (samples 1)) with [(Fin 0, Fin 0)].
      cbv [filter]. rewrite graded_origin, full_origin. repeat split.
Qed.

End Degenerate.

(** * Symmetry and the simplex boundary *)

Section Relations.

Local Open Scope R_scope.

Lemma fadd_comm (a b : xreal) : fadd a b = fadd b a.
Proof.
  destruct a as [a|], b as [b|]; try reflexivity.
  cbv [fadd ideal lift2]. f_equal. apply Rplus_comm.
Qed.

(** C8.  For market parameters with [mu1 = mu2] and [sigma1 = sigma2],
    and [n_points >= 1], the restaking expected return of the pair
    [(phi1, phi2)] is the one of [(phi2, phi1)], and so the entry of
    [E_R] at row [j], column [i] is the entry at row [i], column [j].
    Nothing but the commutativity of the addition of the number type is
    used. *)
Theorem restaking_return_symmetric {T : Type} `{Scalar T}
        (p : Params T) (n : Z) :
  (forall a b : T, fadd a b = fadd b a) ->
  mu1 p = mu2 p -> sigma1 p = sigma2 p -> (1 <= n)%Z ->
  (forall phi1 phi2,
      restaking_return p phi1 phi2 = restaking_return p phi2 phi1) /\
  exists phi g1 g2,
    grids n = Ok (phi, phi, (g1, g2)) /\
    forall i j, get2 (E_R p g1 g2) j i = get2 (E_R p g1 g2) i j.
Proof.
  intros Hcomm Hmu _ Hn.
  assert (Hsym : forall phi1 phi2,
             restaking_return p phi1 phi2 = restaking_return p phi2 phi1).
  { intros phi1 phi2. unfold restaking_return. rewrite Hmu. apply Hcomm. }
  split; [exact Hsym|].
  destruct (grids_ok n) as [phi [_ [_ Hg]]]; [lia|].
  exists phi; do 2 eexists. split; [exact Hg|].
  intros i j. rewrite E_R_tab, !get2_tab.
  destruct (nth_error phi j) as [v|], (nth_error phi i) as [u|];
    try reflexivity.
  f_equal. apply Hsym.
Qed.

Variables m1 m2 s1 s2 r f : R.

Abbreviation p := (market m1 m2 s1 s2 r f).


End Relations.

(** * The theorems at concrete inputs *)

Section Witnesses.

Local Open Scope R_scope.

Lemma restaking_branch_formulas_witness :
  (1 <= 2)%Z /\
  exists phi g1 g2,
    grids 2 = Ok (phi, phi, (g1, g2)) /\
    forall i j phi1 phi2,
      nth_error phi i = Some phi1 ->
      nth_error phi j = Some phi2 ->
      get2 (E_R defaults g1 g2) j i = Some (restaking_return defaults phi1 phi2) /\
      get2 (Var_R defaults g1 g2) j i =
        Some (restaking_variance defaults phi1 phi2).
Proof.
  split; [lia|].
  destruct (restaking_branch_formulas defaults 2)
    as [phi [g1 [g2 [Hg [_ [_ Hf]]]]]]; [lia|].
  exists phi, g1, g2. split; [exact Hg|].
  intros i j phi1 phi2 Hi Hj.
  destruct (Hf i j phi1 phi2 Hi Hj) as [He [Hv _]]. now split.
Defined.

Lemma leveraged_branch_formulas_witness :
  (1 <= 2)%Z /\
  exists phi g1 g2,
    grids 2 = Ok (phi, phi, (g1, g2)) /\
    forall i j phi1 phi2,
      nth_error phi i = Some phi1 ->
      nth_error phi j = Some phi2 ->
      get2 (E_R_leverage defaults g1 g2) j i =
        Some (leveraged_return defaults phi1 phi2) /\
      get2 (Var_R_leverage defaults g1 g2) j i =
        Some (leveraged_variance defaults phi1 phi2).
Proof.
  split; [lia|].
  destruct (leveraged_branch_formulas defaults 2)
    as [phi [g1 [g2 [Hg [_ [_ Hf]]]]]]; [lia|].
  exists phi, g1, g2. split; [exact Hg|].
  intros i j phi1 phi2 Hi Hj.
  destruct (Hf i j phi1 phi2 Hi Hj) as [He [Hv _]]. now split.
Defined.

Lemma restaking_validity_and_sizes_witness :
  (1 <= 2)%Z /\
  exists fig,
    plot_restaking_portfolios defaults 2 = Ok fig /\
    (Z.of_nat (length (points (scatter1 fig)) +
               length (points (scatter_full fig))) <= 2 * 2)%Z /\
    Z.of_nat (length (points (scatter2 fig))) = (2 * 2)%Z.
Proof.
  split; [lia|].
  destruct (restaking_validity_and_sizes defaults 2)
    as [phi [g1 [g2 [fig [_ [Hp [_ [_ [_ [Hle [_ Hsq]]]]]]]]]]]; [lia|].
  exists fig. now repeat split.
Defined.

Lemma fully_allocated_tag_witness :
  (1 <= 2)%Z /\
  exists phi g1 g2,
    grids (T := xreal) 2 = Ok (phi, phi, (g1, g2)) /\
    (forall i j,
        get2 (full_mask g1 g2) j i = Some true ->
        get2 (valid_mask g1 g2) j i = Some true) /\
    (forall i j,
        get2 (full_mask g1 g2) j i = Some true ->
        get2 (graded_mask g1 g2) j i = Some false).
Proof.
  split; [lia|].
  destruct (fully_allocated_tag defaults 2)
    as [phi [g1 [g2 [fig [Hg [_ [_ [Hv [_ [Hd _]]]]]]]]]]; [lia|].
  exists phi, g1, g2. now repeat split.
Defined.


Lemma restaking_return_symmetric_witness :
  (forall a b : xreal, fadd a b = fadd b a) /\
  mu1 twins = mu2 twins /\ sigma1 twins = sigma2 twins /\ (1 <= 2)%Z /\
  forall phi1 phi2,
    restaking_return twins phi1 phi2 = restaking_return twins phi2 phi1.
Proof.
  assert (H1 : mu1 twins = mu2 twins) by reflexivity.
  assert (H2 : sigma1 twins = sigma2 twins) by reflexivity.
  assert (H3 : (1 <= 2)%Z) by lia.
  split; [exact fadd_comm|].
  repeat (split; [assumption|]).
  exact (proj1 (restaking_return_symmetric twins 2 fadd_comm H1 H2 H3)).
Defined.

End Witnesses.

(** * Further properties of the function *)

Section Outcome.

Context {T : Type} `{Scalar T}.
Variable p : Params T.

Local Open Scope scalar_scope.

(** The only exception of the function is the [ValueError] of
    [np.linspace], and it is raised exactly for a negative [n_points];
    every other [n_points] gives a figure. *)
Theorem raises_iff_negative (n : Z) :
  (plot_restaking_portfolios p n = Raise ValueError <-> (n < 0)%Z) /\
  ((exists fig, plot_restaking_portfolios p n = Ok fig) <-> (0 <= n)%Z).
Proof.
  destruct (Z.lt_ge_cases n 0) as [Hneg|Hpos].
  - assert (Hr : plot_restaking_portfolios p n = Raise ValueError).
    { unfold plot_restaking_portfolios. now rewrite grids_negative. }
    split; split; try tauto; try lia.
    intros [fig Hfig]. rewrite Hr in Hfig. discriminate.
  - destruct (plot_ok p n Hpos) as [phi [_ [_ Hp]]].
    split; split; try lia.
    + rewrite Hp. discriminate.
    + intros _. eexists. exact Hp.
Qed.

Lemma tab_shape {A B C : Type} (f : A -> B -> C) (x : list A) (y : list B) :
  has_shape (tab f x y) (length y) (length x).
Proof.
  unfold has_shape, tab. split; [apply length_map|].
  apply Forall_forall. intros row Hrow. apply in_map_iff in Hrow.
  destruct Hrow as [v [<- _]]. apply length_map.
Qed.

(** For [n_points >= 0], the two meshgrid arrays and every array computed
    from them (returns, variances, volatilities, masks) have [n_points] rows
    of [n_points] entries. *)
Theorem arrays_are_square (n : Z) :
  (0 <= n)%Z ->
  exists phi g1 g2,
    grids n = Ok (phi, phi, (g1, g2)) /\
    has_shape g1 (Z.to_nat n) (Z.to_nat n) /\
    has_shape g2 (Z.to_nat n) (Z.to_nat n) /\
    has_shape (E_R p g1 g2) (Z.to_nat n) (Z.to_nat n) /\
    has_shape (Var_R p g1 g2) (Z.to_nat n) (Z.to_nat n) /\
    has_shape (sigma_R p g1 g2) (Z.to_nat n) (Z.to_nat n) /\
    has_shape (E_R_leverage p g1 g2) (Z.to_nat n) (Z.to_nat n) /\
    has_shape (Var_R_leverage p g1 g2) (Z.to_nat n) (Z.to_nat n) /\
    has_shape (sigma_R_leverage p g1 g2) (Z.to_nat n) (Z.to_nat n) /\
    has_shape (valid_mask g1 g2) (Z.to_nat n) (Z.to_nat n) /\
    has_shape (zero_alloc_mask g1 g2) (Z.to_nat n) (Z.to_nat n).
Proof.
  intro Hn. destruct (grids_ok n Hn) as [phi [_ [Hlen Hg]]].
  exists phi; do 2 eexists. split; [exact Hg|].
  rewrite E_R_tab, Var_R_tab, sigma_R_tab, E_R_leverage_tab,
    Var_R_leverage_tab, sigma_R_leverage_tab, valid_mask_tab,
    zero_alloc_mask_tab.
  rewrite <- Hlen. repeat split; apply tab_shape.
Qed.

(** For [n_points >= 0], each scatter call gets as many y values as x
    values, and each colour-graded layer one colour per point: the colour
    of a restaking point is [1 - phi1 - phi2] of its grid pair, the colour
    of a leveraged point is [phi1 + phi2] of its grid pair.  The solid layer
    has no colour array. *)
Theorem colours_follow_points (n : Z) :
  (0 <= n)%Z ->
  exists phi fig,
    linspace zero one n = Ok phi /\
    plot_restaking_portfolios p n = Ok fig /\
    points (scatter1 fig) =
      map (restaking_point p) (filter graded (pairs phi phi)) /\
    cs (scatter1 fig) =
      Some (map (fun q => one - fst q - snd q) (filter graded (pairs phi phi))) /\
    points (scatter2 fig) = map (leveraged_point p) (pairs phi phi) /\
    cs (scatter2 fig) = Some (map (fun q => fst q + snd q) (pairs phi phi)) /\
    cs (scatter_full fig) = None /\
    length (xs (scatter1 fig)) = length (ys (scatter1 fig)) /\
    length (xs (scatter_full fig)) = length (ys (scatter_full fig)) /\
    length (xs (scatter2 fig)) = length (ys (scatter2 fig)).
Proof.
  intro Hn. destruct (grids_ok n Hn) as [phi [Hl [_ Hg]]].
  exists phi; eexists. split; [exact Hl|].
  split; [unfold plot_restaking_portfolios; rewrite Hg; reflexivity|].
  simpl fst; simpl snd.
  split; [apply points_scatter1|]. split; [apply colours_scatter1|].
  split; [apply points_scatter2|]. split; [apply colours_scatter2|].
  split; [reflexivity|].
  rewrite xs_scatter1, xs_scatter_full, xs_scatter2. simpl ys.
  rewrite E_R_tab, E_R_leverage_tab, graded_mask_tab, full_mask_tab,
    !mask_index_tab, ravel_tab.
  now rewrite !length_map.
Qed.

(** For [n_points >= 2] the last sample is the stop value [1] itself, not
    a product of the step, whatever the number type: the last row and the
    last column of the grid are at exactly [1]. *)
Theorem last_sample_is_one (n : Z) :
  (2 <= n)%Z ->
  exists phi g1 g2,
    grids n = Ok (phi, phi, (g1, g2)) /\
    nth_error phi (Z.to_nat n - 1) = Some one /\
    get2 g1 (Z.to_nat n - 1) (Z.to_nat n - 1) = Some one /\
    get2 g2 (Z.to_nat n - 1) (Z.to_nat n - 1) = Some one.
Proof.
  intro Hn.
  assert (Hl : exists l, linspace zero one n = Ok (l ++ [one]) /\
                         length l = (Z.to_nat n - 1)%nat).
  { unfold linspace.
    destruct (Z.ltb_spec n 0) as [Hneg|_]; [lia|].
    destruct (Z.ltb_spec 1 n) as [_|Hle]; [|lia].
    unfold arange. destruct (Z.to_nat n) as [|k] eqn:Ek; [lia|].
    rewrite seq_S, !map_last.
    destruct (0 <? n - 1)%Z; rewrite !map_last, set_last_snoc;
      eexists; (split; [reflexivity|]);
      rewrite !length_map, length_seq; lia. }
  destruct Hl as [l [Hl Hlen]].
  assert (Hlast : nth_error (l ++ [one]) (Z.to_nat n - 1) = Some one).
  { rewrite <- Hlen, nth_error_app2 by lia. now rewrite Nat.sub_diag. }
  exists (l ++ [one]); do 2 eexists.
  split; [unfold grids; rewrite Hl; simpl; rewrite meshgrid_tab; reflexivity|].
  split; [exact Hlast|].
  rewrite !get2_tab, Hlast. now split.
Qed.

End Outcome.

(** * Expected returns in exact arithmetic *)

Section Returns.

Local Open Scope R_scope.

Variables m1 m2 s1 s2 r f : R.

Abbreviation p := (market m1 m2 s1 s2 r f).

Lemma restaking_return_fin (a b : R) :
  restaking_return p (Fin a) (Fin b) = Fin (restaking_ret m1 m2 a b).
Proof. reflexivity. Qed.

Lemma leveraged_return_fin (a b : R) :
  leveraged_return p (Fin a) (Fin b) = Fin (leveraged_ret m1 m2 f a b).
Proof. reflexivity. Qed.

End Returns.

(** * The samples lie in the unit interval *)

Section UnitInterval.

Local Open Scope R_scope.

Lemma in_samples_range (m : nat) (u : xreal) :
  In u (samples m) -> exists a, u = Fin a /\ 0 <= a <= 1.
Proof.
  intro Hu. apply in_map_iff in Hu. destruct Hu as [i [<- Hi]].
  apply in_seq in Hi. eexists. split; [reflexivity|].
  apply sample_range. lia.
Qed.

Lemma in_pairs_samples_range (m : nat) (q : xreal * xreal) :
  In q (pairs (samples m) (samples m)) ->
  exists a b, q = (Fin a, Fin b) /\ 0 <= a <= 1 /\ 0 <= b <= 1.
Proof.
  destruct q as [u v]. rewrite in_pairs. intros [Hu Hv].
  apply in_samples_range in Hu. destruct Hu as [a [-> Ha]].
  apply in_samples_range in Hv. destruct Hv as [b [-> Hb]].
  now exists a, b.
Qed.

End UnitInterval.

(** * Particular portfolios *)

Section Corners.

Local Open Scope R_scope.

Lemma in_samples_zero (m : nat) : (1 <= m)%nat -> In (Fin 0) (samples m).
Proof.
  intro Hm. rewrite <- (sample_first m).
  apply (nth_error_In _ 0). apply nth_samples. lia.
Qed.

Lemma in_samples_one (m : nat) : (2 <= m)%nat -> In (Fin 1) (samples m).
Proof.
  intro Hm. rewrite <- (sample_last m Hm).
  apply (nth_error_In _ (m - 1)). apply nth_samples. lia.
Qed.

Lemma full_one_zero : full (Fin 1, Fin 0) = true.
Proof.
  cbv [full is_valid is_zero_alloc fst snd fle flt fabs fadd fsub tol
       ideal one of_Z lift2 xle xlt xabs].
  destruct (Rle_dec (1 + 0) 1) as [_|Hn]; [|lra].
  replace (1 - 1 - 0) with 0 by lra. rewrite Rabs_R0.
  destruct (Rlt_dec 0 (1 / 10 ^ 10)) as [_|Hn]; [reflexivity|].
  exfalso. apply Hn. unfold Rdiv. rewrite Rmult_1_l.
  apply Rinv_0_lt_compat. apply pow_lt. lra.
Qed.

Lemma full_zero_one : full (Fin 0, Fin 1) = true.
Proof.
  cbv [full is_valid is_zero_alloc fst snd fle flt fabs fadd fsub tol
       ideal one of_Z lift2 xle xlt xabs].
  destruct (Rle_dec (0 + 1) 1) as [_|Hn]; [|lra].
  replace (1 - 0 - 1) with 0 by lra. rewrite Rabs_R0.
  destruct (Rlt_dec 0 (1 / 10 ^ 10)) as [_|Hn]; [reflexivity|].
  exfalso. apply Hn. unfold Rdiv. rewrite Rmult_1_l.
  apply Rinv_0_lt_compat. apply pow_lt. lra.
Qed.

Variables m1 m2 s1 s2 r f : R.

Abbreviation p := (market m1 m2 s1 s2 r f).

Lemma fsqrt_square (c : R) : 0 <= c -> forall v, v = c * c -> fsqrt (Fin v) = Fin c.
Proof.
  intros Hc v ->. rewrite fsqrt_fin by nra. now rewrite sqrt_square.
Qed.

Lemma restaking_point_one_zero :
  0 <= s1 -> restaking_point p (Fin 1, Fin 0) = (Fin s1, Fin m1).
Proof.
  intro Hs. unfold restaking_point. cbv [fst snd].
  rewrite restaking_variance_fin, restaking_return_fin.
  rewrite (fsqrt_square _ Hs) by (unfold restaking_var; ring).
  do 2 f_equal. unfold restaking_ret. ring.
Qed.

Lemma restaking_point_zero_one :
  0 <= s2 -> restaking_point p (Fin 0, Fin 1) = (Fin s2, Fin m2).
Proof.
  intro Hs. unfold restaking_point. cbv [fst snd].
  rewrite restaking_variance_fin, restaking_return_fin.
  rewrite (fsqrt_square _ Hs) by (unfold restaking_var; ring).
  do 2 f_equal. unfold restaking_ret. ring.
Qed.

Lemma leveraged_point_one_zero :
  0 <= s1 -> leveraged_point p (Fin 1, Fin 0) = (Fin s1, Fin m1).
Proof.
  intro Hs. unfold leveraged_point. cbv [fst snd].
  rewrite leveraged_variance_fin, leveraged_return_fin.
  rewrite (fsqrt_square _ Hs) by (unfold leveraged_var; ring).
  do 2 f_equal. unfold leveraged_ret. ring.
Qed.

Lemma leveraged_point_zero_one :
  0 <= s2 -> leveraged_point p (Fin 0, Fin 1) = (Fin s2, Fin m2).
Proof.
  intro Hs. unfold leveraged_point. cbv [fst snd].
  rewrite leveraged_variance_fin, leveraged_return_fin.
  rewrite (fsqrt_square _ Hs) by (unfold leveraged_var; ring).
  do 2 f_equal. unfold leveraged_ret. ring.
Qed.

Lemma leveraged_point_origin :
  leveraged_point p (Fin 0, Fin 0) = (Fin 0, Fin f).
Proof.
  unfold leveraged_point. cbv [fst snd].
  rewrite leveraged_variance_fin, leveraged_return_fin.
  rewrite (fsqrt_square 0 (Rle_refl 0)) by (unfold leveraged_var; ring).
  do 2 f_equal. unfold leveraged_ret. ring.
Qed.

(** For [sigma1, sigma2 >= 0] and [n_points >= 2], in exact arithmetic,
    the figure holds the two single-AVS portfolios [(sigma1, mu1)] and
    [(sigma2, mu2)] both as fully-allocated restaking points and as
    leveraged points, and the risk-free portfolio [(0, rf)] as a leveraged
    point. *)
Theorem figure_holds_the_pure_portfolios (n : Z) :
  0 <= s1 -> 0 <= s2 -> (2 <= n)%Z ->
  exists fig,
    plot_restaking_portfolios p n = Ok fig /\
    In (Fin s1, Fin m1) (points (scatter_full fig)) /\
    In (Fin s2, Fin m2) (points (scatter_full fig)) /\
    In (Fin s1, Fin m1) (points (scatter2 fig)) /\
    In (Fin s2, Fin m2) (points (scatter2 fig)) /\
    In (Fin 0, Fin f) (points (scatter2 fig)).
Proof.
  intros Hs1 Hs2 Hn. set (m := Z.to_nat n).
  assert (Hm : n = Z.of_nat m) by (unfold m; lia).
  eexists.
  split; [unfold plot_restaking_portfolios; rewrite Hm, ideal_grids;
          reflexivity|].
  simpl fst; simpl snd. rewrite points_scatter_full, points_scatter2.
  assert (H0 : In (Fin 0) (samples m)) by (apply in_samples_zero; lia).
  assert (H1 : In (Fin 1) (samples m)) by (apply in_samples_one; lia).
  repeat split.
  - rewrite <- (restaking_point_one_zero Hs1). apply in_map.
    apply filter_In. split; [now apply in_pairs|apply full_one_zero].
  - rewrite <- (restaking_point_zero_one Hs2). apply in_map.
    apply filter_In. split; [now apply in_pairs|apply full_zero_one].
  - rewrite <- (leveraged_point_one_zero Hs1). apply in_map.
    now apply in_pairs.
  - rewrite <- (leveraged_point_zero_one Hs2). apply in_map.
    now apply in_pairs.
  - rewrite <- leveraged_point_origin. apply in_map. now apply in_pairs.
Qed.


End Corners.

(** * The colour values *)

Section Colours.

Local Open Scope R_scope.

Lemma is_valid_fin (a b : R) :
  is_valid (Fin a) (Fin b) = true -> a + b <= 1.
Proof.
  cbv [is_valid fle fadd ideal lift2 one of_Z xle].
  destruct (Rle_dec (a + b) 1); [trivial|discriminate].
Qed.

Lemma is_zero_alloc_fin (a b : R) :
  is_zero_alloc (Fin a) (Fin b) = false -> 1 / 10 ^ 10 <= Rabs (1 - a - b).
Proof.
  cbv [is_zero_alloc flt fabs fsub tol ideal lift2 one of_Z xlt xabs].
  destruct (Rlt_dec (Rabs (1 - a - b)) (1 / 10 ^ 10)); [discriminate|].
  intros _. lra.
Qed.

(** For [n_points >= 1], in exact arithmetic, whatever the market
    parameters: every colour of the colour-graded restaking layer is a
    number between [1e-10] and [1], so no such point has a zero or negative
    residual; every colour of the leveraged layer is a number between [0]
    and [2]. *)
Theorem colour_ranges (p : Params xreal) (n : Z) :
  (1 <= n)%Z ->
  exists fig c1 c2,
    plot_restaking_portfolios p n = Ok fig /\
    cs (scatter1 fig) = Some c1 /\
    cs (scatter2 fig) = Some c2 /\
    (forall c, In c c1 -> exists w, c = Fin w /\ 1 / 10 ^ 10 <= w <= 1) /\
    (forall c, In c c2 -> exists w, c = Fin w /\ 0 <= w <= 2).
Proof.
  intro Hn. set (m := Z.to_nat n).
  assert (Hm : n = Z.of_nat m) by (unfold m; lia).
  do 3 eexists.
  split; [unfold plot_restaking_portfolios; rewrite Hm, ideal_grids;
          reflexivity|].
  simpl fst; simpl snd.
  split; [apply colours_scatter1|]. split; [apply colours_scatter2|].
  split.
  - intros c Hc. apply in_map_iff in Hc. destruct Hc as [q [<- Hq]].
    apply filter_In in Hq. destruct Hq as [Hq Hg].
    apply in_pairs_samples_range in Hq. destruct Hq as [a [b [-> [Ha Hb]]]].
    unfold graded in Hg. cbv [fst snd] in *.
    apply andb_true_iff in Hg. destruct Hg as [Hv Hz].
    apply negb_true_iff in Hz.
    apply is_valid_fin in Hv. apply is_zero_alloc_fin in Hz.
    rewrite Rabs_right in Hz by lra.
    exists (1 - a - b). split; [reflexivity|lra].
  - intros c Hc. apply in_map_iff in Hc. destruct Hc as [q [<- Hq]].
    apply in_pairs_samples_range in Hq. destruct Hq as [a [b [-> [Ha Hb]]]].
    cbv [fst snd]. exists (a + b). split; [reflexivity|lra].
Qed.

End Colours.

(** * The further properties at concrete inputs *)

Section MoreWitnesses.

Local Open Scope R_scope.

Lemma arrays_are_square_witness :
  (0 <= 2)%Z /\
  exists phi g1 g2,
    grids 2 = Ok (phi, phi, (g1, g2)) /\
    has_shape (sigma_R defaults g1 g2) 2 2 /\
    has_shape (sigma_R_leverage defaults g1 g2) 2 2.
Proof.
  split; [lia|].
  destruct (arrays_are_square defaults 2)
    as [phi [g1 [g2 [Hg [_ [_ [_ [_ [Hs [_ [_ [Hl _]]]]]]]]]]]]; [lia|].
  exists phi, g1, g2. split; [exact Hg|]. split; [exact Hs|exact Hl].
Defined.

Lemma colours_follow_points_witness :
  (0 <= 2)%Z /\
  exists fig,
    plot_restaking_portfolios defaults 2 = Ok fig /\
    cs (scatter_full fig) = None /\
    length (xs (scatter1 fig)) = length (ys (scatter1 fig)) /\
    length (xs (scatter2 fig)) = length (ys (scatter2 fig)).
Proof.
  split; [lia|].
  destruct (colours_follow_points defaults 2)
    as [phi [fig [_ [Hp [_ [_ [_ [_ [Hc [H1 [_ H2]]]]]]]]]]]; [lia|].
  exists fig. now repeat split.
Defined.

Lemma last_sample_is_one_witness :
  (2 <= 2)%Z /\
  exists phi g1 g2,
    grids (T := xreal) 2 = Ok (phi, phi, (g1, g2)) /\
    nth_error phi 1 = Some (Fin 1).
Proof.
  split; [lia|].
  destruct (last_sample_is_one (T := xreal) 2)
    as [phi [g1 [g2 [Hg [Hl _]]]]]; [lia|].
  exists phi, g1, g2. now split.
Defined.

Lemma figure_holds_the_pure_portfolios_witness :
  0 <= 10 / 100 /\ 0 <= 15 / 100 /\ (2 <= 2)%Z /\
  exists fig,
    plot_restaking_portfolios defaults 2 = Ok fig /\
    In (Fin (10 / 100), Fin (5 / 100)) (points (scatter_full fig)) /\
    In (Fin 0, Fin (2 / 100)) (points (scatter2 fig)).
Proof.
  assert (H1 : 0 <= 10 / 100) by lra.
  assert (H2 : 0 <= 15 / 100) by lra.
  assert (H3 : (2 <= 2)%Z) by lia.
  repeat (split; [assumption|]).
  destruct (figure_holds_the_pure_portfolios (5 / 100) (7 / 100) (10 / 100)
              (15 / 100) (3 / 10) (2 / 100) 2 H1 H2 H3)
    as [fig [Hp [Ha [_ [_ [_ Hf]]]]]].
  exists fig. now repeat split.
Defined.


Lemma colour_ranges_witness :
  (1 <= 2)%Z /\
  exists fig c1,
    plot_restaking_portfolios defaults 2 = Ok fig /\
    cs (scatter1 fig) = Some c1 /\
    forall c, In c c1 -> exists w, c = Fin w /\ 1 / 10 ^ 10 <= w <= 1.
Proof.
  split; [lia|].
  destruct (colour_ranges defaults 2)
    as [fig [c1 [c2 [Hp [H1 [_ [Hc _]]]]]]]; [lia|].
  exists fig, c1. now repeat split.
Defined.

End MoreWitnesses.

(** * The square root of a double *)

Section SquareRoot.

Lemma shr_1_nonneg (mrs : shr_record) :
  (0 <= shr_m mrs)%Z -> (0 <= shr_m (shr_1 mrs))%Z.
Proof.
  destruct mrs as [m r s]. simpl.
  destruct m as [|[q|q|]|[q|q|]]; simpl; lia.
Qed.

Lemma iter_shr_1_nonneg (n : positive) (mrs : shr_record) :
  (0 <= shr_m mrs)%Z -> (0 <= shr_m (SpecFloat.iter_pos shr_1 n mrs))%Z.
Proof.
  revert mrs. induction n as [n IH|n IH|]; intros mrs Hm; simpl.
  - apply IH. apply IH. apply shr_1_nonneg. exact Hm.
  - apply IH. apply IH. exact Hm.
  - apply shr_1_nonneg. exact Hm.
Qed.

Lemma shr_fexp_nonneg (m e : Z) (l : location) :
  (0 <= m)%Z -> (0 <= shr_m (fst (shr_fexp prec emax m e l)))%Z.
Proof.
  intro Hm. unfold shr_fexp, shr.
  assert (H0 : (0 <= shr_m (shr_record_of_loc m l))%Z).
  { destruct l as [|[| |]]; simpl; exact Hm. }
  destruct (fexp prec emax (Zdigits2 m + e) - e)%Z; simpl; try exact H0.
  apply iter_shr_1_nonneg. exact H0.
Qed.

Lemma round_nearest_even_nonneg (m : Z) (l : location) :
  (0 <= m)%Z -> (0 <= round_nearest_even m l)%Z.
Proof.
  intro Hm. unfold round_nearest_even.
  destruct l as [|[| |]]; try destruct (Z.even m); lia.
Qed.

Lemma binary_round_aux_nonneg (m e : Z) (l : location) :
  (0 <= m)%Z ->
  SFleb (S754_zero false) (binary_round_aux prec emax false m e l) = true.
Proof.
  intro Hm. unfold binary_round_aux.
  pose proof (shr_fexp_nonneg m e l Hm) as H1.
  destruct (shr_fexp prec emax m e l) as [mrs' e'] eqn:E1. simpl in H1.
  pose proof (shr_fexp_nonneg
                (round_nearest_even (shr_m mrs') (loc_of_shr_record mrs'))
                e' loc_Exact (round_nearest_even_nonneg _ _ H1)) as H2.
  destruct (shr_fexp prec emax _ e' loc_Exact) as [mrs'' e''] eqn:E2.
  simpl in H2.
  destruct (shr_m mrs'') as [|q|q]; [reflexivity| |lia].
  destruct (e'' <=? emax - prec)%Z; reflexivity.
Qed.

Lemma sqrt_core_nonneg (m : positive) (e : Z) :
  (0 <= fst (fst (SFsqrt_core_binary prec emax (Zpos m) e)))%Z.
Proof.
  unfold SFsqrt_core_binary.
  set (e' := Z.min _ _). set (s := (e - 2 * e')%Z).
  set (m' := match s with
             | Zpos _ => Z.shiftl (Zpos m) s
             | Z0 => Zpos m
             | Zneg _ => 0%Z
             end).
  assert (Hm' : (0 <= m')%Z).
  { unfold m'. destruct s; try lia. apply Z.shiftl_nonneg. lia. }
  pose proof (Z.sqrtrem_spec m' Hm') as Hs.
  destruct (Z.sqrtrem m') as [q r]. simpl. lia.
Qed.

Lemma SFsqrt_nonneg (x : spec_float) :
  SFleb (S754_zero false) x = true ->
  SFleb (S754_zero false) (SF64sqrt x) = true.
Proof.
  destruct x as [b|b| |b m e]; try destruct b; try discriminate;
    try reflexivity.
  intros _. unfold SF64sqrt, SFsqrt.
  pose proof (sqrt_core_nonneg m e) as Hq.
  destruct (SFsqrt_core_binary prec emax (Zpos m) e) as [[mz ez] lz].
  simpl in Hq. now apply binary_round_aux_nonneg.
Qed.

Lemma SFsqrt_negative (x : spec_float) :
  SFltb x (S754_zero false) = true -> SF64sqrt x = S754_nan.
Proof.
  destruct x as [b|b| |b m e]; try destruct b; try discriminate; reflexivity.
Qed.

Lemma SFsqrt_nan_or_nonneg (x : spec_float) :
  SF64sqrt x = S754_nan \/
  SFleb (S754_zero false) (SF64sqrt x) = true.
Proof.
  destruct x as [b|b| |b m e]; try destruct b;
    try (left; reflexivity); try (right; reflexivity).
  right. apply SFsqrt_nonneg. reflexivity.
Qed.

Lemma is_nan_of_spec (x : float) :
  Prim2SF x = S754_nan -> PrimFloat.is_nan x = true.
Proof.
  intro Hx. unfold PrimFloat.is_nan. rewrite FloatAxioms.eqb_spec, Hx.
  reflexivity.
Qed.

Lemma zero_of_spec : Prim2SF 0%float = S754_zero false.
Proof. reflexivity. Qed.

(** [np.sqrt] on doubles: not negative on what is not negative, NaN on
    what is negative, and never anything else. *)

Lemma sqrt_of_nonneg (x : float) :
  PrimFloat.leb 0 x = true -> PrimFloat.leb 0 (PrimFloat.sqrt x) = true.
Proof.
  rewrite !FloatAxioms.leb_spec, FloatAxioms.sqrt_spec, zero_of_spec.
  apply SFsqrt_nonneg.
Qed.

Lemma sqrt_of_negative (x : float) :
  PrimFloat.ltb x 0 = true -> PrimFloat.is_nan (PrimFloat.sqrt x) = true.
Proof.
  rewrite FloatAxioms.ltb_spec, zero_of_spec. intro Hx. apply is_nan_of_spec.
  rewrite FloatAxioms.sqrt_spec. now apply SFsqrt_negative.
Qed.

Lemma sqrt_nan_or_nonneg (x : float) :
  PrimFloat.is_nan (PrimFloat.sqrt x) = true \/
  PrimFloat.leb 0 (PrimFloat.sqrt x) = true.
Proof.
  destruct (SFsqrt_nan_or_nonneg (Prim2SF x)) as [Hn|Hp].
  - left. apply is_nan_of_spec. now rewrite FloatAxioms.sqrt_spec.
  - right. now rewrite FloatAxioms.leb_spec, FloatAxioms.sqrt_spec, zero_of_spec.
Qed.

End SquareRoot.

(** * The function on doubles *)

Lemma get2_amap {A B : Type} (f : A -> B) (a : array2 A) (j i : nat) :
  get2 (amap f a) j i = option_map f (get2 a j i).
Proof.
  unfold get2, amap. rewrite nth_error_map.
  destruct (nth_error a j) as [row|]; simpl; [|reflexivity].
  apply nth_error_map.
Qed.

Lemma b64_grids (n : Z) :
  (0 <= n)%Z ->
  grids n = Ok (b64_samples n, b64_samples n,
                (tab (fun u _ => u) (b64_samples n) (b64_samples n),
                 tab (fun _ v => v) (b64_samples n) (b64_samples n))).
Proof.
  intro Hn. destruct (grids_ok (T := float) n Hn) as [phi [Hl [_ Hg]]].
  unfold b64_samples. rewrite Hl. exact Hg.
Qed.

Lemma b64_plot (p : Params float) (n : Z) :
  (0 <= n)%Z ->
  plot_restaking_portfolios p n =
  Ok (figure p (tab (fun u _ => u) (b64_samples n) (b64_samples n))
               (tab (fun _ v => v) (b64_samples n) (b64_samples n))).
Proof.
  intro Hn. unfold plot_restaking_portfolios.
  rewrite (b64_grids n Hn). reflexivity.
Qed.

(** * What rounding changes *)

Section Rounded.

Local Open Scope R_scope.

Lemma b64_volatility_of_variance (fv : float -> float -> float)
      (x y : list float) (j i : nat) (v : float) :
  get2 (tab fv x y) j i = Some v ->
  get2 (tab (fun a b => fsqrt (fv a b)) x y) j i = Some (PrimFloat.sqrt v) /\
  (PrimFloat.leb 0 v = true -> PrimFloat.leb 0 (PrimFloat.sqrt v) = true) /\
  (PrimFloat.ltb v 0 = true -> PrimFloat.is_nan (PrimFloat.sqrt v) = true).
Proof.
  rewrite !get2_tab.
  destruct (nth_error y j) as [b|]; [|discriminate].
  destruct (nth_error x i) as [a|]; [|discriminate].
  intro Hv. injection Hv as <-.
  split; [reflexivity|]. split; [apply sqrt_of_nonneg|apply sqrt_of_negative].
Qed.

(** C3, as the code has it.  For [sigma1 >= 0], [sigma2 >= 0],
    [-1 <= rho <= 1] and [n_points >= 1], in exact real arithmetic both
    variances are not negative at every grid pair and every volatility is
    a number that is not negative.  On the doubles of the code, whatever
    the parameters, every volatility is [np.sqrt] of the computed variance:
    not negative where the computed variance is not negative, NaN where it
    is negative; so every volatility drawn is NaN or not negative, and
    nothing is raised.  NaN does occur inside the precondition: with
    [sigma1 = 0.07], [sigma2 = 0.21], [rho = -1] and 4 points the
    restaking layer draws one. *)
Theorem volatility_nonneg_or_nan (m1 m2 s1 s2 r f : R) (q : Params float)
        (n : Z) :
  0 <= s1 -> 0 <= s2 -> -1 <= r <= 1 -> (1 <= n)%Z ->
  (exists phi g1 g2 fig,
      grids n = Ok (phi, phi, (g1, g2)) /\
      plot_restaking_portfolios (market m1 m2 s1 s2 r f) n = Ok fig /\
      (forall i j, (i < Z.to_nat n)%nat -> (j < Z.to_nat n)%nat ->
         exists v,
           get2 (Var_R (market m1 m2 s1 s2 r f) g1 g2) j i = Some (Fin v) /\
           0 <= v /\
           get2 (sigma_R (market m1 m2 s1 s2 r f) g1 g2) j i =
             Some (Fin (sqrt v)) /\
           0 <= sqrt v) /\
      (forall i j, (i < Z.to_nat n)%nat -> (j < Z.to_nat n)%nat ->
         exists v,
           get2 (Var_R_leverage (market m1 m2 s1 s2 r f) g1 g2) j i =
             Some (Fin v) /\
           0 <= v /\
           get2 (sigma_R_leverage (market m1 m2 s1 s2 r f) g1 g2) j i =
             Some (Fin (sqrt v)) /\
           0 <= sqrt v) /\
      (forall s,
         In s (xs (scatter1 fig)) \/ In s (xs (scatter_full fig)) \/
         In s (xs (scatter2 fig)) ->
         exists v, s = Fin v /\ 0 <= v)) /\
  (exists phi g1 g2 fig,
      grids n = Ok (phi, phi, (g1, g2)) /\
      plot_restaking_portfolios q n = Ok fig /\
      (forall i j v,
         get2 (Var_R q g1 g2) j i = Some v ->
         get2 (sigma_R q g1 g2) j i = Some (PrimFloat.sqrt v) /\
         (PrimFloat.leb 0 v = true ->
          PrimFloat.leb 0 (PrimFloat.sqrt v) = true) /\
         (PrimFloat.ltb v 0 = true ->
          PrimFloat.is_nan (PrimFloat.sqrt v) = true)) /\
      (forall i j v,
         get2 (Var_R_leverage q g1 g2) j i = Some v ->
         get2 (sigma_R_leverage q g1 g2) j i = Some (PrimFloat.sqrt v) /\
         (PrimFloat.leb 0 v = true ->
          PrimFloat.leb 0 (PrimFloat.sqrt v) = true) /\
         (PrimFloat.ltb v 0 = true ->
          PrimFloat.is_nan (PrimFloat.sqrt v) = true)) /\
      (forall s,
         In s (xs (scatter1 fig)) \/ In s (xs (scatter_full fig)) \/
         In s (xs (scatter2 fig)) ->
         PrimFloat.is_nan s = true \/ PrimFloat.leb 0 s = true)) /\
  (exists fig,
      PrimFloat.leb 0 0.07 = true /\ PrimFloat.leb 0 0.21 = true /\
      PrimFloat.leb (-1) (-1) = true /\ PrimFloat.leb (-1) 1 = true /\
      plot_restaking_portfolios
        (b64_market 0.05 0.07 0.07 0.21 (-1) 0.02) 4 = Ok fig /\
      existsb PrimFloat.is_nan (xs (scatter1 fig)) = true).
Proof.
  intros Hs1 Hs2 Hr Hn. split; [|split].
  - exact (exact_volatility_nonneg m1 m2 s1 s2 r f n Hs1 Hs2 Hr Hn).
  - do 4 eexists.
    split; [apply b64_grids; lia|]. split; [apply b64_plot; lia|].
    split; [|split].
    + intros i j v. rewrite Var_R_tab, sigma_R_tab.
      apply b64_volatility_of_variance.
    + intros i j v. rewrite Var_R_leverage_tab, sigma_R_leverage_tab.
      apply b64_volatility_of_variance.
    + rewrite xs_scatter1, xs_scatter_full, xs_scatter2.
      intros s [Hin|[Hin|Hin]]; apply in_map_iff in Hin;
        destruct Hin as [pr [<- _]]; apply sqrt_nan_or_nonneg.
  - eexists. do 4 (split; [reflexivity|]).
    split; [apply b64_plot; discriminate|].
    vm_compute. reflexivity.
Qed.

(** C3, the failing half: doubles inside the precondition, and inside the
    ranges of the page's sliders, for which a volatility drawn is NaN.
    With [sigma1 = 0.01], [sigma2 = 0.02], [rho = -1] and 105 points, the
    valid pair at column 66, row 28 has a restaking variance of about
    [-1.36e-20]; with the default volatilities, [rho = -1] and 100 points,
    the pair at column 3, row 2 has a leveraged variance of about
    [-3.39e-21]. *)
Lemma variance_rounds_below_zero :
  PrimFloat.leb 0 0.01 = true /\ PrimFloat.leb 0 0.02 = true /\
  PrimFloat.leb 0 0.10 = true /\ PrimFloat.leb 0 0.15 = true /\
  PrimFloat.leb (-1) (-1) = true /\ PrimFloat.leb (-1) 1 = true /\
  (exists phi g1 g2 fig,
      grids 105 = Ok (phi, phi, (g1, g2)) /\
      plot_restaking_portfolios
        (b64_market 0.05 0.07 0.01 0.02 (-1) 0.02) 105 = Ok fig /\
      get2 (valid_mask g1 g2) 28 66 = Some true /\
      get2 (Var_R (b64_market 0.05 0.07 0.01 0.02 (-1) 0.02) g1 g2) 28 66 =
        Some (-1.3552527156068805e-20)%float /\
      get2 (sigma_R (b64_market 0.05 0.07 0.01 0.02 (-1) 0.02) g1 g2) 28 66 =
        Some nan /\
      forallb (PrimFloat.leb 0) (xs (scatter1 fig)) = false) /\
  (exists phi g1 g2 fig,
      grids 100 = Ok (phi, phi, (g1, g2)) /\
      plot_restaking_portfolios
        (b64_market 0.05 0.07 0.10 0.15 (-1) 0.02) 100 = Ok fig /\
      get2 (Var_R_leverage (b64_market 0.05 0.07 0.10 0.15 (-1) 0.02) g1 g2)
           2 3 = Some (-3.3881317890172014e-21)%float /\
      get2 (sigma_R_leverage (b64_market 0.05 0.07 0.10 0.15 (-1) 0.02) g1 g2)
           2 3 = Some nan /\
      forallb (PrimFloat.leb 0) (xs (scatter2 fig)) = false).
Proof.
  repeat (split; [reflexivity|]).
  split.
  - exists (b64_samples 105),
           (tab (fun u _ => u) (b64_samples 105) (b64_samples 105)),
           (tab (fun _ v => v) (b64_samples 105) (b64_samples 105)),
           (figure (b64_market 0.05 0.07 0.01 0.02 (-1) 0.02)
                   (tab (fun u _ => u) (b64_samples 105) (b64_samples 105))
                   (tab (fun _ v => v) (b64_samples 105) (b64_samples 105))).
    split; [apply b64_grids; discriminate|].
    split; [apply b64_plot; discriminate|].
    repeat split; vm_compute; reflexivity.
  - exists (b64_samples 100),
           (tab (fun u _ => u) (b64_samples 100) (b64_samples 100)),
           (tab (fun _ v => v) (b64_samples 100) (b64_samples 100)),
           (figure (b64_market 0.05 0.07 0.10 0.15 (-1) 0.02)
                   (tab (fun u _ => u) (b64_samples 100) (b64_samples 100))
                   (tab (fun _ v => v) (b64_samples 100) (b64_samples 100))).
    split; [apply b64_grids; discriminate|].
    split; [apply b64_plot; discriminate|].
    repeat split; vm_compute; reflexivity.
Qed.

End Rounded.

Section Boundary.

Local Open Scope R_scope.



End Boundary.

(** * How many points are drawn *)

Section Counts.

(** The number of points of each layer depends on [n_points] only: two
    calls with the same [n_points] and different market parameters draw
    layers of the same sizes, whatever the number type. *)
Theorem layer_sizes_ignore_the_market {T : Type} `{Scalar T}
        (p p' : Params T) (n : Z) (fig fig' : Figure T) :
  plot_restaking_portfolios p n = Ok fig ->
  plot_restaking_portfolios p' n = Ok fig' ->
  length (points (scatter1 fig)) = length (points (scatter1 fig')) /\
  length (points (scatter_full fig)) = length (points (scatter_full fig')) /\
  length (points (scatter2 fig)) = length (points (scatter2 fig')).
Proof.
  intros Hp Hp'.
  destruct (Z.lt_ge_cases n 0) as [Hneg|Hpos].
  - unfold plot_restaking_portfolios in Hp.
    rewrite grids_negative in Hp by assumption. discriminate.
  - destruct (plot_ok p n Hpos) as [phi [_ [Hg Hq]]].
    destruct (plot_ok p' n Hpos) as [phi' [_ [Hg' Hq']]].
    rewrite Hg in Hg'. injection Hg' as <-.
    rewrite Hq in Hp. injection Hp as <-.
    rewrite Hq' in Hp'. injection Hp' as <-.
    rewrite !points_scatter1, !points_scatter_full, !points_scatter2.
    now rewrite !length_map.
Qed.

(** On the doubles of the code, with the default [n_points = 100] and
    whatever the market parameters, the figure has 94 fully-allocated
    points, 4950 colour-graded restaking points and 10000 leveraged points.
    Of the 100 grid pairs within the tolerance [1e-10] of full allocation,
    6 have a sum [phi1 + phi2] that rounds above 1, as the pair at column
    94, row 5 whose sum is [1.0000000000000002]: they are marked by
    [zero_alloc_mask] and not by [valid_mask], and no restaking layer draws
    them. *)
Theorem default_grid_drops_boundary_pairs (p : Params float) :
  exists phi g1 g2 fig,
    grids 100 = Ok (phi, phi, (g1, g2)) /\
    plot_restaking_portfolios p 100 = Ok fig /\
    Z.of_nat (length (points (scatter_full fig))) = 94%Z /\
    Z.of_nat (length (points (scatter1 fig))) = 4950%Z /\
    Z.of_nat (length (points (scatter2 fig))) = 10000%Z /\
    Z.of_nat (length (filter (fun b => b) (ravel (zero_alloc_mask g1 g2)))) =
      100%Z /\
    Z.of_nat (length (filter (fun b => b)
                        (ravel (azip andb (zero_alloc_mask g1 g2)
                                          (amap negb (valid_mask g1 g2)))))) =
      6%Z /\
    nth_error phi 94 = Some 0.94949494949494961%float /\
    nth_error phi 5 = Some 0.050505050505050511%float /\
    fadd 0.94949494949494961%float 0.050505050505050511%float =
      1.0000000000000002%float /\
    get2 (zero_alloc_mask g1 g2) 5 94 = Some true /\
    get2 (valid_mask g1 g2) 5 94 = Some false /\
    get2 (graded_mask g1 g2) 5 94 = Some false /\
    get2 (full_mask g1 g2) 5 94 = Some false.
Proof.
  exists (b64_samples 100),
         (tab (fun u _ => u) (b64_samples 100) (b64_samples 100)),
         (tab (fun _ v => v) (b64_samples 100) (b64_samples 100)),
         (figure p (tab (fun u _ => u) (b64_samples 100) (b64_samples 100))
                   (tab (fun _ v => v) (b64_samples 100) (b64_samples 100))).
  split; [apply b64_grids; discriminate|].
  split; [apply b64_plot; discriminate|].
  rewrite points_scatter1, points_scatter_full, points_scatter2, !length_map.
  repeat split; vm_compute; reflexivity.
Qed.

(** Leverage_app.py.  On the doubles of the code, whatever the six slider
    values, the call of the page ([n_points = 105]) raises nothing, and
    its figure has 105 fully-allocated points, 5460 colour-graded restaking
    points and 11025 leveraged points: at 105 points no pair of the
    anti-diagonal is lost to rounding. *)
Theorem page_layer_sizes (s : Sliders float) :
  exists fig,
    app_plot s = Ok fig /\
    Z.of_nat (length (points (scatter_full fig))) = 105%Z /\
    Z.of_nat (length (points (scatter1 fig))) = 5460%Z /\
    Z.of_nat (length (points (scatter2 fig))) = 11025%Z /\
    Z.of_nat (length (filter (fun q => is_zero_alloc (fst q) (snd q)
                                       && negb (is_valid (fst q) (snd q)))
                             (pairs (b64_samples 105) (b64_samples 105)))) =
      0%Z.
Proof.
  eexists.
  split; [unfold app_plot; apply b64_plot; discriminate|].
  rewrite points_scatter1, points_scatter_full, points_scatter2, !length_map.
  repeat split; vm_compute; reflexivity.
Qed.

End Counts.

(** * The revised theorems at concrete inputs *)

Section LastWitnesses.

Local Open Scope R_scope.

Lemma volatility_nonneg_or_nan_witness :
  0 <= 10 / 100 /\ 0 <= 15 / 100 /\ -1 <= 3 / 10 <= 1 /\ (1 <= 2)%Z /\
  (exists fig,
      plot_restaking_portfolios defaults 2 = Ok fig /\
      forall s,
        In s (xs (scatter1 fig)) \/ In s (xs (scatter_full fig)) \/
        In s (xs (scatter2 fig)) ->
        exists v, s = Fin v /\ 0 <= v) /\
  (exists fig,
      plot_restaking_portfolios b64_defaults 2 = Ok fig /\
      forall s,
        In s (xs (scatter1 fig)) \/ In s (xs (scatter_full fig)) \/
        In s (xs (scatter2 fig)) ->
        PrimFloat.is_nan s = true \/ PrimFloat.leb 0 s = true).
Proof.
  assert (H1 : 0 <= 10 / 100) by lra.
  assert (H2 : 0 <= 15 / 100) by lra.
  assert (H3 : -1 <= 3 / 10 <= 1) by lra.
  assert (H4 : (1 <= 2)%Z) by lia.
  repeat (split; [assumption|]).
  destruct (volatility_nonneg_or_nan (5 / 100) (7 / 100) (10 / 100)
              (15 / 100) (3 / 10) (2 / 100) b64_defaults 2 H1 H2 H3 H4)
    as [[phi [g1 [g2 [fig [_ [Hp [_ [_ Hs]]]]]]]]
        [[phi' [g1' [g2' [fig' [_ [Hp' [_ [_ Hs']]]]]]]] _]].
  split; [exists fig|exists fig']; now split.
Defined.


Lemma layer_sizes_ignore_the_market_witness :
  exists fig fig',
    plot_restaking_portfolios defaults 2 = Ok fig /\
    plot_restaking_portfolios twins 2 = Ok fig' /\
    length (points (scatter1 fig)) = length (points (scatter1 fig')) /\
    length (points (scatter_full fig)) = length (points (scatter_full fig')) /\
    length (points (scatter2 fig)) = length (points (scatter2 fig')).
Proof.
  destruct (plot_ok defaults 2) as [phi [_ [_ Hp]]]; [lia|].
  destruct (plot_ok twins 2) as [phi' [_ [_ Hp']]]; [lia|].
  do 2 eexists. split; [exact Hp|]. split; [exact Hp'|].
  exact (layer_sizes_ignore_the_market defaults twins 2 _ _ Hp Hp').
Defined.

End LastWitnesses.
